(** * anipaca-proxy: the playlist rewriter and the request relay

    A shallow embedding of [api/proxy.ts]: the header policy resolver
    [getDomainHeaders], the playlist rewriter [processM3U8] and the request
    handler, and of the small relay that follows them in the same source
    unit.  The two JavaScript siblings in [api/proxy.js] carry the same
    resolver loop and the same rewriter, character for character; their
    handlers and the longer domain table of the second are embedded after
    the TypeScript ones and compared with them.

    Strings.  A JavaScript string is modelled by the bytes of its UTF-8
    encoding, as a Stdlib [string].  Every string the rewriter meets is
    well formed: the playlist text is produced by [response.text()], the
    proxy base from the [Host] header and the target from the decoded query
    string.  On well-formed strings the byte view and the code-unit view of
    [startsWith], [includes], [split], [trim], the [URI=] regular expression
    and [encodeURIComponent] coincide.

    Runtime.  [new URL(input, base)] and [fetch] belong to the JavaScript
    runtime, not to this repository.  They are parameters of the model
    (Section variables); every theorem holds for every runtime.  *)

From Stdlib Require Import String Ascii ZArith NArith Lia List Bool.
From stdpp Require Import base option gmap strings.

Local Arguments String.append : simpl nomatch.
Local Open Scope string_scope.
#[local] Set Default Proof Using "Type".

(* ===================================================================== *)
(** * JavaScript string primitives used by the source *)
(* ===================================================================== *)

Module JS.

Definition LF : ascii := "010"%char.
Definition CR : ascii := "013"%char.
Definition DQ : ascii := "034"%char.

(** [s.startsWith(p)] *)
Fixpoint startsWith (s p : string) {struct p} : bool :=
  match p with
  | EmptyString => true
  | String b p' =>
      match s with
      | EmptyString => false
      | String a s' => Ascii.eqb a b && startsWith s' p'
      end
  end.

(** [s.includes(p)] *)
Fixpoint includes (s p : string) : bool :=
  startsWith s p ||
  match s with
  | EmptyString => false
  | String _ s' => includes s' p
  end.

(** [s.endsWith(p)]: some suffix of [s] is [p]. *)
Fixpoint endsWith (s p : string) : bool :=
  String.eqb s p ||
  match s with
  | EmptyString => false
  | String _ s' => endsWith s' p
  end.

(** The remainder of [s] after the prefix [p], when [s] starts with [p]. *)
Fixpoint dropPrefix (s p : string) {struct p} : option string :=
  match p with
  | EmptyString => Some s
  | String b p' =>
      match s with
      | EmptyString => None
      | String a s' => if Ascii.eqb a b then dropPrefix s' p' else None
      end
  end.

(** ** [trim]

    ECMAScript strips WhiteSpace and LineTerminator code points: U+0009 to
    U+000D, U+0020, U+00A0, U+1680, U+2000 to U+200A, U+2028, U+2029,
    U+202F, U+205F, U+3000 and U+FEFF.  In UTF-8 these are one, two or
    three bytes long. *)
Definition ws1 (c : ascii) : bool :=
  let n := N_of_ascii c in ((9 <=? n) && (n <=? 13) || (n =? 32))%N.

Definition ws2 (c1 c2 : ascii) : bool :=
  ((N_of_ascii c1 =? 194) && (N_of_ascii c2 =? 160))%N.

Definition ws3 (c1 c2 c3 : ascii) : bool :=
  let a := N_of_ascii c1 in
  let b := N_of_ascii c2 in
  let c := N_of_ascii c3 in
  ((a =? 225) && (b =? 154) && (c =? 128)
   || (a =? 226) && (b =? 128)
      && ((128 <=? c) && (c <=? 138) || (c =? 168) || (c =? 169) || (c =? 175))
   || (a =? 226) && (b =? 129) && (c =? 159)
   || (a =? 227) && (b =? 128) && (c =? 128)
   || (a =? 239) && (b =? 187) && (c =? 191))%N.

Fixpoint trimStart (s : string) : string :=
  match s with
  | EmptyString => EmptyString
  | String c1 s1 =>
      if ws1 c1 then trimStart s1
      else
        match s1 with
        | EmptyString => s
        | String c2 s2 =>
            if ws2 c1 c2 then trimStart s2
            else
              match s2 with
              | EmptyString => s
              | String c3 s3 => if ws3 c1 c2 c3 then trimStart s3 else s
              end
        end
  end.

Definition isEmpty (s : string) : bool :=
  match s with EmptyString => true | String _ _ => false end.

(** The trailing white space is the longest suffix made of white space
    only: cut at the first position whose suffix trims to nothing. *)
Fixpoint trimEnd (s : string) : string :=
  match s with
  | EmptyString => EmptyString
  | String c s' => if isEmpty (trimStart s) then EmptyString else String c (trimEnd s')
  end.

Definition trim (s : string) : string := trimEnd (trimStart s).

(** A one-byte character that is no white space; no byte of a longer white
    space character is one. *)
Definition solid (c : ascii) : bool := negb (ws1 c) && (N_of_ascii c <? 128)%N.

(** ** [content.split(/\r?\n/)] and [lines.join('\n')] *)
Fixpoint splitLines (s : string) : list string :=
  match s with
  | EmptyString => [EmptyString]
  | String c s' =>
      if Ascii.eqb c LF then EmptyString :: splitLines s'
      else
        let cons_char :=
          match splitLines s' with
          | l :: ls => String c l :: ls
          | [] => [String c EmptyString]
          end in
        if Ascii.eqb c CR then
          match s' with
          | String c' s'' =>
              if Ascii.eqb c' LF then EmptyString :: splitLines s'' else cons_char
          | EmptyString => cons_char
          end
        else cons_char
  end.

Definition join (sep : string) (ls : list string) : string := String.concat sep ls.

(** [s.split('\n')]: the lines of a text whose only separator is the line
    feed, as a consumer of the rewritten playlist counts them. *)
Fixpoint splitLF (s : string) : list string :=
  match s with
  | EmptyString => [EmptyString]
  | String c s' =>
      if Ascii.eqb c LF then EmptyString :: splitLF s'
      else
        match splitLF s' with
        | l :: ls => String c l :: ls
        | [] => [String c EmptyString]
        end
  end.

Definition notLF (c : ascii) : bool := negb (Ascii.eqb c LF).
Definition notDQ (c : ascii) : bool := negb (Ascii.eqb c DQ).

(** Every character of [s] satisfies [p]. *)
Fixpoint allChars (p : ascii -> bool) (s : string) : bool :=
  match s with
  | EmptyString => true
  | String c s' => p c && allChars p s'
  end.

(** ** [s.lastIndexOf(c)] for a one-character needle, [-1] when absent *)
Fixpoint lastIndexOf_from (s : string) (c : ascii) (i acc : Z) : Z :=
  match s with
  | EmptyString => acc
  | String a s' => lastIndexOf_from s' c (i + 1) (if Ascii.eqb a c then i else acc)
  end.

Definition lastIndexOf (s : string) (c : ascii) : Z := lastIndexOf_from s c 0 (-1).

(** ** [s.substring(a, b)]: both ends clamped to [0, length], swapped when
    out of order. *)
Definition substring (s : string) (a b : Z) : string :=
  let len := Z.of_nat (String.length s) in
  let clamp x := Z.max 0 (Z.min x len) in
  let lo := Z.min (clamp a) (clamp b) in
  let hi := Z.max (clamp a) (clamp b) in
  String.substring (Z.to_nat lo) (Z.to_nat (hi - lo)) s.

(** ** [encodeURIComponent]

    Every byte outside [A-Z a-z 0-9 - _ . ! ~ * ' ( )] becomes [%XX] with
    upper-case hexadecimal digits.  The function throws on a lone surrogate
    only, which a well-formed string does not hold: in the byte view it is
    total. *)
Definition unreserved (c : ascii) : bool :=
  let n := N_of_ascii c in
  ((65 <=? n) && (n <=? 90) || (97 <=? n) && (n <=? 122) || (48 <=? n) && (n <=? 57)
   || (n =? 45) || (n =? 95) || (n =? 46) || (n =? 33) || (n =? 126)
   || (n =? 42) || (n =? 39) || (n =? 40) || (n =? 41))%N.

Definition hexDigit (n : N) : ascii :=
  if (n <? 10)%N then ascii_of_N (48 + n) else ascii_of_N (55 + n).

Definition encodeByte (c : ascii) : string :=
  if unreserved c then String c EmptyString
  else
    let n := N_of_ascii c in
    String "%" (String (hexDigit (n / 16)) (String (hexDigit (n mod 16)) EmptyString)).

(** The characters [encodeURIComponent] can emit. *)
Definition uriChar (c : ascii) : bool := unreserved c || Ascii.eqb c "%".

Fixpoint encodeURIComponent (s : string) : string :=
  match s with
  | EmptyString => EmptyString
  | String c s' => encodeByte c ++ encodeURIComponent s'
  end.

(** ** [decodeURIComponent]: the inverse reading of [%XX] escapes; a [%]
    that is not followed by two hexadecimal digits is a [URIError].  The
    check that the decoded bytes form well-formed UTF-8 is not modelled; it
    always passes on the encoding of a well-formed string. *)
Definition hexValue (c : ascii) : option N :=
  let n := N_of_ascii c in
  if ((48 <=? n) && (n <=? 57))%N then Some (n - 48)%N
  else if ((65 <=? n) && (n <=? 70))%N then Some (n - 55)%N
  else if ((97 <=? n) && (n <=? 102))%N then Some (n - 87)%N
  else None.

Fixpoint decodeURIComponent (s : string) : option string :=
  match s with
  | EmptyString => Some EmptyString
  | String c s1 =>
      if Ascii.eqb c "%" then
        match s1 with
        | String h (String l s3) =>
            match hexValue h, hexValue l with
            | Some a, Some b =>
                match decodeURIComponent s3 with
                | Some r => Some (String (ascii_of_N (16 * a + b)) r)
                | None => None
                end
            | _, _ => None
            end
        | _ => None
        end
      else
        match decodeURIComponent s1 with
        | Some r => Some (String c r)
        | None => None
        end
  end.

(** ** The global replace of the [URI=] attribute expression

    The expression is [URI=], a double quote, a captured non-empty run of
    characters other than the double quote, and a closing double quote. *)

(** [URI=] followed by a double quote. *)
Definition URI_OPEN : string := "URI=" ++ String DQ EmptyString.

(** The greedy negated class: the longest run without a double quote, and
    what follows it. *)
Fixpoint spanNotQuote (s : string) : string * string :=
  match s with
  | EmptyString => (EmptyString, EmptyString)
  | String c s' =>
      if Ascii.eqb c DQ then (EmptyString, s)
      else let '(v, r) := spanNotQuote s' in (String c v, r)
  end.

(** One attempt of the expression at the start of [s]: the captured group
    and the text after the closing quote.  The run is not empty and must
    be followed by a quote; shorter runs cannot help, every character of
    the run being no quote. *)
Definition matchURI (s : string) : option (string * string) :=
  match dropPrefix s URI_OPEN with
  | None => None
  | Some r =>
      match spanNotQuote r with
      | (String c v, String _ r') => Some (String c v, r')
      | _ => None
      end
  end.

(** Left to right, non-overlapping: a match is replaced by [fn match uri]
    and the scan resumes after it; otherwise one character is copied.
    The fuel is the length of the text, which the scan never exceeds. *)
Fixpoint replaceURI_fuel (fuel : nat) (fn : string -> string -> string) (s : string) : string :=
  match fuel with
  | O => s
  | S k =>
      match matchURI s with
      | Some (uri, rest) =>
          fn (URI_OPEN ++ uri ++ String DQ EmptyString) uri ++ replaceURI_fuel k fn rest
      | None =>
          match s with
          | EmptyString => EmptyString
          | String c s' => String c (replaceURI_fuel k fn s')
          end
      end
  end.

Definition replaceURI (fn : string -> string -> string) (s : string) : string :=
  replaceURI_fuel (S (String.length s)) fn s.

(** ** Truthiness and template literals *)

(** [!!v] for [v : string | undefined]. *)
Definition truthy (v : option string) : bool :=
  match v with
  | Some s => negb (isEmpty s)
  | None => false
  end.

(** [`${v}`] for [v : string | undefined]. *)
Definition template (v : option string) : string :=
  match v with
  | Some s => s
  | None => "undefined"
  end.

(** [v === s] for [v : string | undefined]. *)
Definition strictEq (v : option string) (s : string) : bool :=
  match v with
  | Some x => String.eqb x s
  | None => false
  end.

(** [v || d] for [v : string | undefined]. *)
Definition orElse (v : option string) (d : string) : string :=
  match v with
  | Some x => if isEmpty x then d else x
  | None => d
  end.

(** ASCII lower-casing, as Node applies it to header names. *)
Definition lowerChar (c : ascii) : ascii :=
  let n := N_of_ascii c in
  if ((65 <=? n) && (n <=? 90))%N then ascii_of_N (n + 32) else c.

Fixpoint toLowerCase (s : string) : string :=
  match s with
  | EmptyString => EmptyString
  | String c s' => String (lowerChar c) (toLowerCase s')
  end.

End JS.

(* ===================================================================== *)
(** * The runtime: errors, URL objects, fetch responses *)
(* ===================================================================== *)

(** A thrown [Error]; only its [message] is read by the source. *)
Record Error := mkError { message : string }.

Inductive result (A : Type) : Type :=
| Ok (a : A)
| Throw (e : Error).
Arguments Ok {A} a.
Arguments Throw {A} e.

(** The fields of a WHATWG [URL] object. *)
Record URL := mkURL { href : string; hostname : string; pathname : string }.

(** A value of [req.query]: [string | string[]]. *)
Inductive QueryValue :=
| QString (s : string)
| QArray (ss : list string).

(** [String(v)] for [v : string | string[] | undefined], the conversion
    [new URL] and [fetch] apply to their input. *)
Definition toString (v : option QueryValue) : string :=
  match v with
  | Some (QString s) => s
  | Some (QArray ss) => JS.join "," ss
  | None => "undefined"
  end.

(** [!v] for [v : string | string[] | undefined]: an array is truthy. *)
Definition falsy (v : option QueryValue) : bool :=
  match v with
  | None => true
  | Some (QString s) => JS.isEmpty s
  | Some (QArray _) => false
  end.

(** [typeof v !== 'string'] *)
Definition notString (v : option QueryValue) : bool :=
  match v with
  | Some (QString _) => false
  | _ => true
  end.

(** The inbound request: method, parsed query and lower-cased headers. *)
Record Request := mkRequest {
  req_method : option string;
  req_query : gmap string QueryValue;
  req_headers : gmap string string
}.

(** The second argument of [fetch]. *)
Record RequestInit := mkInit {
  init_method : option string;
  init_headers : gmap string string;
  init_timeout : option Z
}.

(** The upstream response; [Headers.get] is a lookup by lower-case name, and
    reading the body may reject. *)
Record Response := mkResponse {
  resp_status : Z;
  resp_headers : gmap string string;
  resp_text : result string;
  resp_arrayBuffer : result (list Byte.byte)
}.

Inductive JSON :=
| JString (s : string)
| JStrings (ss : list string)
| JUndefined.

(** The value a query parameter takes inside a JSON body. *)
Definition toJSON (v : option QueryValue) : JSON :=
  match v with
  | Some (QString s) => JString s
  | Some (QArray ss) => JStrings ss
  | None => JUndefined
  end.

Inductive Body :=
| BodyEmpty
| BodyJson (fields : list (string * JSON))
| BodyText (s : string)
| BodyBytes (b : list Byte.byte).

(** The outbound [res] object as the handler's own calls leave it: status
    code, headers by lower-case name, and the body once sent.  What the
    platform helpers add on their own when the body is written (a charset, a
    length, an entity tag) is not part of the model. *)
Record Res := mkRes {
  statusCode : Z;
  res_headers : gmap string string;
  res_body : option Body
}.

(** What one invocation has done so far: the state of [res] and the
    upstream requests issued, oldest first. *)
Record World := mkWorld {
  res : Res;
  upstream : list (string * RequestInit)
}.

Definition initial : World := mkWorld (mkRes 200 ∅ None) [].

(** ** The handler monad: state that survives a throw *)

Definition M (A : Type) : Type := World -> result A * World.

Definition ret {A} (a : A) : M A := fun w => (Ok a, w).

Definition bind {A B} (m : M A) (k : A -> M B) : M B :=
  fun w =>
    match m w with
    | (Ok a, w') => k a w'
    | (Throw e, w') => (Throw e, w')
    end.

Definition lift {A} (r : result A) : M A := fun w => (r, w).

Definition try_catch {A} (m : M A) (h : Error -> M A) : M A :=
  fun w =>
    match m w with
    | (Ok a, w') => (Ok a, w')
    | (Throw e, w') => h e w'
    end.

Declare Scope js_scope.
Delimit Scope js_scope with js.
Notation "'let*' x ':=' m 'in' k" := (bind m (fun x => k))
  (at level 10, x name, m at level 100, k at level 200) : js_scope.
Notation "m ';;' k" := (bind m (fun _ => k))
  (at level 100, k at level 200, right associativity) : js_scope.

Fixpoint forEach {A} (l : list A) (f : A -> M unit) : M unit :=
  match l with
  | [] => ret tt
  | x :: l' => bind (f x) (fun _ => forEach l' f)
  end.

(** [res.status(n)], [res.setHeader(k, v)], [res.json(o)], [res.send(b)]
    and [res.end()]. *)
Definition res_status (n : Z) : M unit :=
  fun w => (Ok tt, mkWorld (mkRes n (res_headers (res w)) (res_body (res w))) (upstream w)).

Definition res_setHeader (k v : string) : M unit :=
  fun w =>
    (Ok tt,
     mkWorld (mkRes (statusCode (res w)) (<[JS.toLowerCase k := v]> (res_headers (res w)))
                    (res_body (res w)))
             (upstream w)).

Definition res_send (b : Body) : M unit :=
  fun w => (Ok tt, mkWorld (mkRes (statusCode (res w)) (res_headers (res w)) (Some b)) (upstream w)).

Definition res_json (fields : list (string * JSON)) : M unit := res_send (BodyJson fields).

Definition res_end : M unit := res_send BodyEmpty.

(** [res.getHeader(k)] *)
Definition getHeader (r : Res) (k : string) : option string :=
  res_headers r !! JS.toLowerCase k.

(** [{...a, ...b}]: the keys of [b] win. *)
Definition spread (a b : gmap string string) : gmap string string := b ∪ a.

(* ===================================================================== *)
(** * api/proxy.ts *)
(* ===================================================================== *)

Module Proxy.
Import JS.

Definition CORS_HEADERS : list (string * string) :=
  [ ("Access-Control-Allow-Origin", "*");
    ("Access-Control-Allow-Methods", "GET, POST, OPTIONS");
    ("Access-Control-Allow-Headers", "Content-Type, Range, Authorization");
    ("Access-Control-Expose-Headers", "Content-Length, Content-Range") ].

(** One value of the table: [{ origin: o, referer: r }]. *)
Definition originReferer (o r : string) : gmap string string :=
  <["referer" := r]> (<["origin" := o]> ∅).

(** The entries of the table in the order [Object.entries] yields them,
    which for string keys is the order they are written in. *)
Definition DOMAIN_HEADERS : list (string * gmap string string) :=
  [ ("kwikie.ru", originReferer "https://kwik.si" "https://kwik.si/");
    ("krussdomi.com", originReferer "https://hls.krussdomi.com" "https://hls.krussdomi.com/");
    ("megacloud.blog", originReferer "https://megacloud.blog" "https://megacloud.blog/");
    ("megacloud.club", originReferer "https://megacloud.club" "https://megacloud.club/");
    ("vmeas.cloud", originReferer "https://vidmoly.to" "https://vidmoly.to/");
    ("embed.su", originReferer "https://embed.su" "https://embed.su/");
    ("akamaized.net", originReferer "https://bl.krussdomi.com" "https://bl.krussdomi.com/") ].

(** The [for ... of] loop of [getDomainHeaders] over the remaining entries. *)
Fixpoint getDomainHeaders_loop (entries : list (string * gmap string string))
         (hostname : string) : gmap string string :=
  match entries with
  | [] => ∅
  | (domain, headers) :: rest =>
      if includes hostname domain then headers else getDomainHeaders_loop rest hostname
  end.

Definition getDomainHeaders (hostname : string) : gmap string string :=
  getDomainHeaders_loop DOMAIN_HEADERS hostname.

Section Runtime.
(** [new URL(input, base)], with [base] absent for the one-argument call. *)
Variable new_URL : string -> option string -> result URL.
(** [await fetch(url, init)] *)
Variable fetch : string -> RequestInit -> result Response.

(** [`${baseUrl}?url=${encodeURIComponent(abs)}`] *)
Definition proxied (baseUrl abs : string) : string :=
  baseUrl ++ "?url=" ++ encodeURIComponent abs.

(** The [abs] of the replacer callback. *)
Definition uriAbs (base uri : string) : string :=
  if startsWith uri "http" then uri
  else
    match new_URL uri (Some base) with
    | Ok u => href u
    | Throw _ => uri
    end.

(** The [abs] of the segment branch; a throw leaves the [try]. *)
Definition segmentAbs (base trim : string) : result string :=
  if startsWith trim "http" then Ok trim
  else if startsWith trim "//" then Ok ("https:" ++ trim)
  else
    match new_URL trim (Some base) with
    | Ok u => Ok (href u)
    | Throw e => Throw e
    end.

(** The arrow function mapped over the lines. *)
Definition processLine (baseUrl base line : string) : string :=
  let trim := trim line in
  if includes line URI_OPEN then
    replaceURI
      (fun _ uri => URI_OPEN ++ proxied baseUrl (uriAbs base uri) ++ String DQ EmptyString)
      line
  else if negb (isEmpty trim) && negb (startsWith trim "#") && negb (startsWith trim baseUrl)
  then
    match segmentAbs base trim with
    | Ok abs => proxied baseUrl abs
    | Throw _ => line
    end
  else line.

Definition processM3U8 (content baseUrl targetUrl : string) : string :=
  let lines := splitLines content in
  let base := substring targetUrl 0 (lastIndexOf targetUrl "/" + 1) in
  join (String LF EmptyString) (map (processLine baseUrl base) lines).

Local Open Scope js_scope.

Definition setCors : M unit :=
  forEach CORS_HEADERS (fun '(k, v) => res_setHeader k v).

(** [await fetch(...)]: the call is recorded, then answers or rejects. *)
Definition do_fetch (url : string) (init : RequestInit) : M Response :=
  fun w => (fetch url init, mkWorld (res w) (upstream w ++ [(url, init)])).

(** The [isM3U8] constant; [endsWith] is a method of strings only. *)
Definition isM3U8 (targetUrl : option QueryValue) (response : Response) : result bool :=
  match targetUrl with
  | Some (QString s) =>
      Ok (endsWith s ".m3u8"
          || match resp_headers response !! "content-type" with
             | Some ct => includes ct "mpegurl"
             | None => false
             end)
  | _ => Throw (mkError "targetUrl.endsWith is not a function")
  end.

(** [if (v) res.setHeader(name, v)] *)
Definition forwardHeader (name : string) (v : option string) : M unit :=
  if truthy v then res_setHeader name (template v) else ret tt.

(** [error?.message || 'Unknown error'] *)
Definition messageOf (e : Error) : string :=
  if isEmpty (message e) then "Unknown error" else message e.

(** The [headers] object of the upstream request: the fixed defaults,
    the domain policy spread over them, and the inbound [Range]. *)
Definition requestHeaders (req : Request) (url : URL) : gmap string string :=
  let headers :=
    spread
      (<["Accept-Language" := "en-US,en;q=0.9"]>
         (<["Accept" := "*/*"]>
            (<["User-Agent" :=
                 "Mozilla/5.0 (Windows NT 10.0; Win64; x64) AppleWebKit/537.36"]>
               ∅)))
      (getDomainHeaders (hostname url)) in
  if truthy (req_headers req !! "range")
  then <["Range" := template (req_headers req !! "range")]> headers
  else headers.

(** The options object handed to [fetch]. *)
Definition fetchInit (req : Request) (headers : gmap string string) : RequestInit :=
  mkInit (Some (orElse (req_method req) "GET")) headers (Some 25000%Z).

Definition handler (req : Request) : M unit :=
  if strictEq (req_method req) "OPTIONS" then
    res_status 204 ;;
    setCors ;;
    res_end
  else
    let targetUrl := req_query req !! "url" in
    if falsy targetUrl then
      res_setHeader "Content-Type" "application/json" ;;
      setCors ;;
      res_status 400 ;;
      res_json
        [ ("error", JString "Missing url parameter");
          ("usage", JString "Add ?url=https://example.com/video.m3u8");
          ("example",
           JString ("https://" ++ template (req_headers req !! "host")
                    ++ "/api/proxy?url=https://example.com/video.m3u8")) ]
    else
      try_catch
        (let* url := lift (new_URL (toString targetUrl) None) in
         let headers := requestHeaders req url in
         let* response := do_fetch (toString targetUrl) (fetchInit req headers) in
         let* isM3U8 := lift (isM3U8 targetUrl response) in
         if isM3U8 : bool then
           let* text := lift (resp_text response) in
           let baseUrl := "https://" ++ template (req_headers req !! "host") ++ "/api/proxy" in
           let processed := processM3U8 text baseUrl (toString targetUrl) in
           res_setHeader "Content-Type" "application/vnd.apple.mpegurl" ;;
           setCors ;;
           res_setHeader "Cache-Control" "public, max-age=300" ;;
           res_status 200 ;;
           res_send (BodyText processed)
         else
           setCors ;;
           let contentType := resp_headers response !! "content-type" in
           let contentLength := resp_headers response !! "content-length" in
           let contentRange := resp_headers response !! "content-range" in
           let acceptRanges := resp_headers response !! "accept-ranges" in
           forwardHeader "Content-Type" contentType ;;
           forwardHeader "Content-Length" contentLength ;;
           forwardHeader "Content-Range" contentRange ;;
           forwardHeader "Accept-Ranges" acceptRanges ;;
           let* buffer := lift (resp_arrayBuffer response) in
           res_status (resp_status response) ;;
           res_send (BodyBytes buffer))
        (fun error =>
           res_setHeader "Content-Type" "application/json" ;;
           setCors ;;
           res_status 500 ;;
           res_json
             [ ("error", JString "Proxy request failed");
               ("message", JString (messageOf error));
               ("target", toJSON targetUrl) ]).

(** One invocation, from a fresh [res] and no upstream traffic. *)
Definition run (req : Request) : result unit * World := handler req initial.

End Runtime.
End Proxy.

(* ===================================================================== *)
(** * The plain relay that follows [api/proxy.ts] in the same source unit *)
(* ===================================================================== *)

Module SimpleProxy.
Import JS.

Section Runtime.
(** [node-fetch] *)
Variable fetch : string -> RequestInit -> result Response.

Local Open Scope js_scope.

Definition do_fetch (url : string) (init : RequestInit) : M Response :=
  fun w => (fetch url init, mkWorld (res w) (upstream w ++ [(url, init)])).

Definition handler (req : Request) : M unit :=
  let url := req_query req !! "url" in
  if falsy url || notString url then
    res_status 400 ;;
    res_json [ ("error", JString "URL parameter required") ]
  else
    try_catch
      (let* response :=
         do_fetch (toString url)
           (mkInit None
              (<["User-Agent" := orElse (req_headers req !! "user-agent") "Mozilla/5.0"]> ∅)
              None) in
       let* data := lift (resp_text response) in
       res_setHeader "Access-Control-Allow-Origin" "*" ;;
       res_setHeader "Content-Type"
         (orElse (resp_headers response !! "content-type") "text/plain") ;;
       res_status (resp_status response) ;;
       res_send (BodyText data))
      (fun _ =>
         res_status 500 ;;
         res_json [ ("error", JString "Proxy request failed") ]).

Definition run (req : Request) : result unit * World := handler req initial.

End Runtime.
End SimpleProxy.

(* ===================================================================== *)
(** * api/proxy.js *)
(* ===================================================================== *)

(** The first unit of [api/proxy.js].  Its CORS table, its domain table, its
    resolver and its rewriter repeat those of [api/proxy.ts] word for word
    and are taken from there; the handler differs in the preflight answer,
    in the example of the 400 body, in the method handed to [fetch] and in
    the message of the 500 body, and is written out. *)
Module ProxyJs.
Import JS.

Definition CORS_HEADERS : list (string * string) := Proxy.CORS_HEADERS.

Definition DOMAIN_HEADERS : list (string * gmap string string) := Proxy.DOMAIN_HEADERS.

Definition getDomainHeaders (hostname : string) : gmap string string :=
  Proxy.getDomainHeaders_loop DOMAIN_HEADERS hostname.

Section Runtime.
Variable new_URL : string -> option string -> result URL.
Variable fetch : string -> RequestInit -> result Response.

Local Open Scope js_scope.

Definition setCors : M unit :=
  forEach CORS_HEADERS (fun '(k, v) => res_setHeader k v).

(** The [headers] object of the upstream request. *)
Definition requestHeaders (req : Request) (url : URL) : gmap string string :=
  let headers :=
    spread
      (<["Accept-Language" := "en-US,en;q=0.9"]>
         (<["Accept" := "*/*"]>
            (<["User-Agent" :=
                 "Mozilla/5.0 (Windows NT 10.0; Win64; x64) AppleWebKit/537.36"]>
               ∅)))
      (getDomainHeaders (hostname url)) in
  if truthy (req_headers req !! "range")
  then <["Range" := template (req_headers req !! "range")]> headers
  else headers.

(** The options object handed to [fetch]: the method is passed as it is,
    absent when the request has none. *)
Definition fetchInit (req : Request) (headers : gmap string string) : RequestInit :=
  mkInit (req_method req) headers (Some 25000%Z).

Definition handler (req : Request) : M unit :=
  if strictEq (req_method req) "OPTIONS" then
    res_status 204 ;;
    res_setHeader "Access-Control-Allow-Origin" "*" ;;
    res_setHeader "Access-Control-Allow-Methods" "GET, POST, OPTIONS" ;;
    res_setHeader "Access-Control-Allow-Headers" "Content-Type, Range" ;;
    res_end
  else
    let targetUrl := req_query req !! "url" in
    if falsy targetUrl then
      res_setHeader "Content-Type" "application/json" ;;
      setCors ;;
      res_status 400 ;;
      res_json
        [ ("error", JString "Missing url parameter");
          ("usage", JString "Add ?url=https://example.com/video.m3u8");
          ("example",
           JString (template (req_headers req !! "host")
                    ++ "/api/proxy?url=https://example.com/video.m3u8")) ]
    else
      try_catch
        (let* url := lift (new_URL (toString targetUrl) None) in
         let headers := requestHeaders req url in
         let* response := Proxy.do_fetch fetch (toString targetUrl) (fetchInit req headers) in
         let* isM3U8 := lift (Proxy.isM3U8 targetUrl response) in
         if isM3U8 : bool then
           let* text := lift (resp_text response) in
           let baseUrl := "https://" ++ template (req_headers req !! "host") ++ "/api/proxy" in
           let processed := Proxy.processM3U8 new_URL text baseUrl (toString targetUrl) in
           res_setHeader "Content-Type" "application/vnd.apple.mpegurl" ;;
           setCors ;;
           res_setHeader "Cache-Control" "public, max-age=300" ;;
           res_status 200 ;;
           res_send (BodyText processed)
         else
           setCors ;;
           let contentType := resp_headers response !! "content-type" in
           let contentLength := resp_headers response !! "content-length" in
           let contentRange := resp_headers response !! "content-range" in
           let acceptRanges := resp_headers response !! "accept-ranges" in
           Proxy.forwardHeader "Content-Type" contentType ;;
           Proxy.forwardHeader "Content-Length" contentLength ;;
           Proxy.forwardHeader "Content-Range" contentRange ;;
           Proxy.forwardHeader "Accept-Ranges" acceptRanges ;;
           let* buffer := lift (resp_arrayBuffer response) in
           res_status (resp_status response) ;;
           res_send (BodyBytes buffer))
        (fun error =>
           res_setHeader "Content-Type" "application/json" ;;
           setCors ;;
           res_status 500 ;;
           res_json
             [ ("error", JString "Proxy request failed");
               ("message", JString (message error));
               ("target", toJSON targetUrl) ]).

Definition run (req : Request) : result unit * World := handler req initial.

End Runtime.
End ProxyJs.

(** The second unit of [api/proxy.js], the module-style entry point.  The
    rewriter and the resolver loop are again those of [api/proxy.ts]; the
    domain table has four more entries, and the handler sets the CORS table
    on the preflight answer before its status. *)
Module Shrina.
Import JS.

Definition CORS_HEADERS : list (string * string) := Proxy.CORS_HEADERS.

Definition DOMAIN_HEADERS : list (string * gmap string string) :=
  [ ("kwikie.ru", Proxy.originReferer "https://kwik.si" "https://kwik.si/");
    ("padorupado.ru", Proxy.originReferer "https://kwik.si" "https://kwik.si/");
    ("krussdomi.com",
     Proxy.originReferer "https://hls.krussdomi.com" "https://hls.krussdomi.com/");
    ("megacloud.blog", Proxy.originReferer "https://megacloud.blog" "https://megacloud.blog/");
    ("megacloud.club", Proxy.originReferer "https://megacloud.club" "https://megacloud.club/");
    ("vmeas.cloud", Proxy.originReferer "https://vidmoly.to" "https://vidmoly.to/");
    ("embed.su", Proxy.originReferer "https://embed.su" "https://embed.su/");
    ("akamaized.net",
     Proxy.originReferer "https://bl.krussdomi.com" "https://bl.krussdomi.com/");
    ("premilkyway.com", Proxy.originReferer "https://uqloads.xyz" "https://uqloads.xyz/");
    ("anih1.top", Proxy.originReferer "https://ee.anih1.top" "https://ee.anih1.top/");
    ("xyk3.top", Proxy.originReferer "https://ee.anih1.top" "https://ee.anih1.top/") ].

Definition getDomainHeaders (hostname : string) : gmap string string :=
  Proxy.getDomainHeaders_loop DOMAIN_HEADERS hostname.

Section Runtime.
Variable new_URL : string -> option string -> result URL.
Variable fetch : string -> RequestInit -> result Response.

Local Open Scope js_scope.

Definition setCors : M unit :=
  forEach CORS_HEADERS (fun '(k, v) => res_setHeader k v).

(** The [headers] object of the upstream request. *)
Definition requestHeaders (req : Request) (url : URL) : gmap string string :=
  let headers :=
    spread
      (<["Accept-Language" := "en-US,en;q=0.9"]>
         (<["Accept" := "*/*"]>
            (<["User-Agent" :=
                 "Mozilla/5.0 (Windows NT 10.0; Win64; x64) AppleWebKit/537.36"]>
               ∅)))
      (getDomainHeaders (hostname url)) in
  if truthy (req_headers req !! "range")
  then <["Range" := template (req_headers req !! "range")]> headers
  else headers.

Definition fetchInit (req : Request) (headers : gmap string string) : RequestInit :=
  mkInit (req_method req) headers (Some 25000%Z).

Definition handler (req : Request) : M unit :=
  if strictEq (req_method req) "OPTIONS" then
    setCors ;;
    res_status 204 ;;
    res_end
  else
    let targetUrl := req_query req !! "url" in
    if falsy targetUrl then
      res_setHeader "Content-Type" "application/json" ;;
      setCors ;;
      res_status 400 ;;
      res_json
        [ ("error", JString "Missing url parameter");
          ("usage", JString "Add ?url=https://example.com/video.m3u8");
          ("example",
           JString ("https://" ++ template (req_headers req !! "host")
                    ++ "/api/proxy?url=https://example.com/video.m3u8")) ]
    else
      try_catch
        (let* url := lift (new_URL (toString targetUrl) None) in
         let headers := requestHeaders req url in
         let* response := Proxy.do_fetch fetch (toString targetUrl) (fetchInit req headers) in
         let* isM3U8 := lift (Proxy.isM3U8 targetUrl response) in
         if isM3U8 : bool then
           let* text := lift (resp_text response) in
           let baseUrl := "https://" ++ template (req_headers req !! "host") ++ "/api/proxy" in
           let processed := Proxy.processM3U8 new_URL text baseUrl (toString targetUrl) in
           res_setHeader "Content-Type" "application/vnd.apple.mpegurl" ;;
           setCors ;;
           res_setHeader "Cache-Control" "public, max-age=300" ;;
           res_status 200 ;;
           res_send (BodyText processed)
         else
           setCors ;;
           let contentType := resp_headers response !! "content-type" in
           let contentLength := resp_headers response !! "content-length" in
           let contentRange := resp_headers response !! "content-range" in
           let acceptRanges := resp_headers response !! "accept-ranges" in
           Proxy.forwardHeader "Content-Type" contentType ;;
           Proxy.forwardHeader "Content-Length" contentLength ;;
           Proxy.forwardHeader "Content-Range" contentRange ;;
           Proxy.forwardHeader "Accept-Ranges" acceptRanges ;;
           let* buffer := lift (resp_arrayBuffer response) in
           res_status (resp_status response) ;;
           res_send (BodyBytes buffer))
        (fun error =>
           res_setHeader "Content-Type" "application/json" ;;
           setCors ;;
           res_status 500 ;;
           res_json
             [ ("error", JString "Proxy request failed");
               ("message", JString (message error));
               ("target", toJSON targetUrl) ]).

Definition run (req : Request) : result unit * World := handler req initial.

End Runtime.
End Shrina.

(* ===================================================================== *)
(** * A reference runtime for the examples *)
(* ===================================================================== *)

(** The theorems below hold for every runtime.  To run the model on concrete
    requests one runtime is fixed here: a table of instances of the WHATWG
    URL algorithm (every other input is rejected, which the examples never
    rely on except for inputs the algorithm rejects too), and upstream
    servers that answer every request with one canned response. *)
Module Ref.

Definition urls : list (string * option string * URL) :=
  [ ("seg1.ts", Some "https://a.com/path/",
     mkURL "https://a.com/path/seg1.ts" "a.com" "/path/seg1.ts");
    ("key.bin", Some "https://a.com/p/",
     mkURL "https://a.com/p/key.bin" "a.com" "/p/key.bin");
    ("httpseg.ts", Some "https://a.com/path/",
     mkURL "https://a.com/path/httpseg.ts" "a.com" "/path/httpseg.ts");
    ("httpkey.bin", Some "https://a.com/p/",
     mkURL "https://a.com/p/httpkey.bin" "a.com" "/p/httpkey.bin");
    ("https://a.com/path/index.m3u8", None,
     mkURL "https://a.com/path/index.m3u8" "a.com" "/path/index.m3u8");
    ("https://a.com/v.m3u8?token=abc", None,
     mkURL "https://a.com/v.m3u8?token=abc" "a.com" "/v.m3u8");
    ("https://a.com/path/seg1.ts", None,
     mkURL "https://a.com/path/seg1.ts" "a.com" "/path/seg1.ts");
    ("https://hls.krussdomi.com/v/seg7.ts", None,
     mkURL "https://hls.krussdomi.com/v/seg7.ts" "hls.krussdomi.com" "/v/seg7.ts") ].

Definition sameBase (a b : option string) : bool :=
  match a, b with
  | Some x, Some y => String.eqb x y
  | None, None => true
  | _, _ => false
  end.

Fixpoint lookupURL (table : list (string * option string * URL))
         (input : string) (base : option string) : result URL :=
  match table with
  | [] => Throw (mkError "Invalid URL")
  | (i, b, u) :: rest =>
      if String.eqb i input && sameBase b base then Ok u else lookupURL rest input base
  end.

Definition new_URL (input : string) (base : option string) : result URL :=
  lookupURL urls input base.

(** An upstream that answers every request with [r]. *)
Definition serve (r : Response) : string -> RequestInit -> result Response :=
  fun _ _ => Ok r.

(** An upstream that cannot be reached. *)
Definition offline : string -> RequestInit -> result Response :=
  fun _ _ => Throw (mkError "fetch failed").

(** The double quote as a string. *)
Definition q : string := String JS.DQ EmptyString.

(** The proxy base URL of a deployment answering as [p.example]. *)
Definition B : string := "https://p.example/api/proxy".

(** The target of the playlist examples. *)
Definition T : string := "https://a.com/path/index.m3u8".

(** Inbound headers: the host alone, and the host with a range. *)
Definition host : gmap string string := <["host" := "p.example"]> ∅.
Definition ranged : gmap string string := <["range" := "bytes=0-1023"]> host.

(** A three-line media playlist with carriage return and line feed endings. *)
Definition playlist : string :=
  "#EXTM3U" ++ String JS.CR (String JS.LF "#EXTINF:4,")
  ++ String JS.CR (String JS.LF "seg1.ts")
  ++ String JS.CR (String JS.LF EmptyString).

(** An inbound request with one [url] parameter. *)
Definition request (method url : string) (headers : gmap string string) : Request :=
  mkRequest (Some method) (<["url" := QString url]> ∅) headers.

(** A partial answer that declares the playlist media type. *)
Definition playlist206 : Response :=
  mkResponse 206
    (<["content-range" := "bytes 0-6/7"]>
       (<["content-type" := "application/vnd.apple.mpegurl"]> ∅))
    (Ok "seg1.ts")
    (Ok [Byte.x73; Byte.x65; Byte.x67; Byte.x31; Byte.x2e; Byte.x74; Byte.x73]).

(** A partial answer that carries two bytes of a media segment. *)
Definition segment206 : Response :=
  mkResponse 206
    (<["content-range" := "bytes 0-1/188"]> (<["content-type" := "video/mp2t"]> ∅))
    (Ok "G@")
    (Ok [Byte.x47; Byte.x40]).

(** A complete answer of no declared playlist type. *)
Definition octets200 : Response :=
  mkResponse 200
    (<["content-type" := "application/octet-stream"]> ∅)
    (Ok "seg1.ts")
    (Ok [Byte.x73; Byte.x65; Byte.x67; Byte.x31; Byte.x2e; Byte.x74; Byte.x73]).

End Ref.

(* ===================================================================== *)
(** * Vocabulary of the statements *)
(* ===================================================================== *)

Module Shape.
Import JS.

(** A line as the attribute expression scans it: stretches of text, each
    followed by one quoted [URI=] attribute, and a tail.  [f] gives what
    stands between the quotes of each attribute, so [assemble id] is the
    line as read and [assemble f] the same line with every value replaced. *)
Fixpoint assemble (f : string -> string) (attrs : list (string * string)) (tail : string)
  : string :=
  match attrs with
  | [] => tail
  | (text, value) :: rest =>
      text ++ URI_OPEN ++ f value ++ String DQ EmptyString ++ assemble f rest tail
  end.

(** Text in which no attribute begins: every opening in it is followed at
    once by a double quote, an empty value, which the expression does not
    accept. *)
Fixpoint quiet (s : string) : bool :=
  match s with
  | EmptyString => true
  | String _ s' =>
      match dropPrefix s URI_OPEN with
      | Some value => startsWith value (String DQ EmptyString)
      | None => true
      end
      && quiet s'
  end.

(** A tail in which no attribute begins: every opening in it has an empty
    value, or a value that is never closed by a double quote. *)
Fixpoint dead (s : string) : bool :=
  match s with
  | EmptyString => true
  | String _ s' =>
      match dropPrefix s URI_OPEN with
      | Some value => startsWith value (String DQ EmptyString) || allChars notDQ value
      | None => true
      end
      && dead s'
  end.

(** One occurrence of the expression with the text before it: no attribute
    begins in the text, and the value is a non-empty run without a double
    quote. *)
Definition scanned (a : string * string) : Prop :=
  quiet (fst a) = true /\ snd a <> EmptyString /\ allChars notDQ (snd a) = true.

End Shape.

Module Relay.

(** The permissive CORS header set on an outbound response. *)
Definition cors_ok (r : Res) : Prop :=
  getHeader r "Access-Control-Allow-Origin" = Some "*"
  /\ getHeader r "Access-Control-Allow-Methods" = Some "GET, POST, OPTIONS"
  /\ getHeader r "Access-Control-Allow-Headers" = Some "Content-Type, Range, Authorization"
  /\ getHeader r "Access-Control-Expose-Headers" = Some "Content-Length, Content-Range".

(** The response carries a JSON object with an [error] field. *)
Definition error_body (r : Res) : Prop :=
  exists fields message,
    res_body r = Some (BodyJson fields) /\ In ("error", JString message) fields.

(** The [content-type] test of the classification. *)
Definition declares_mpegurl (response : Response) : bool :=
  match resp_headers response !! "content-type" with
  | Some ct => JS.includes ct "mpegurl"
  | None => false
  end.

End Relay.

Module Flow.

(** Two upstream answers that the handlers cannot tell apart: both reject
    with the same error, or both answer with the same status, the same
    body readers and the same values of the four headers a handler reads. *)
Definition same_answer (a b : result Response) : Prop :=
  match a, b with
  | Ok r1, Ok r2 =>
      resp_status r1 = resp_status r2
      /\ resp_text r1 = resp_text r2
      /\ resp_arrayBuffer r1 = resp_arrayBuffer r2
      /\ resp_headers r1 !! "content-type" = resp_headers r2 !! "content-type"
      /\ resp_headers r1 !! "content-length" = resp_headers r2 !! "content-length"
      /\ resp_headers r1 !! "content-range" = resp_headers r2 !! "content-range"
      /\ resp_headers r1 !! "accept-ranges" = resp_headers r2 !! "accept-ranges"
  | Throw e1, Throw e2 => e1 = e2
  | _, _ => False
  end.

(** Two inbound requests that agree on the method, the [url] parameter of
    the query, and the [host] and [range] headers. *)
Definition same_request (r1 r2 : Request) : Prop :=
  req_method r1 = req_method r2
  /\ req_query r1 !! "url" = req_query r2 !! "url"
  /\ req_headers r1 !! "host" = req_headers r2 !! "host"
  /\ req_headers r1 !! "range" = req_headers r2 !! "range".

(** The names a header object of the upstream request can hold. *)
Definition request_names : list string :=
  [ "User-Agent"; "Accept"; "Accept-Language"; "origin"; "referer"; "Range" ].

(** The 500 body of the TypeScript handler. *)
Definition failure (message : string) (target : option QueryValue) : Body :=
  BodyJson
    [ ("error", JString "Proxy request failed");
      ("message", JString message);
      ("target", toJSON target) ].

End Flow.

(** More requests and answers for the examples. *)
Module Cases.

(** The segment answer of [Ref] with a cookie and a server name added. *)
Definition cookie206 : Response :=
  mkResponse 206
    (<["set-cookie" := "session=1"]>
       (<["server" := "nginx"]> (resp_headers Ref.segment206)))
    (resp_text Ref.segment206)
    (resp_arrayBuffer Ref.segment206).

(** Inbound headers of a caller that sends credentials of its own. *)
Definition credentials : gmap string string :=
  <["cookie" := "session=1"]> (<["authorization" := "Bearer t"]> Ref.ranged).

(** A partial answer whose body cannot be read. *)
Definition unreadable206 : Response :=
  mkResponse 206
    (<["accept-ranges" := "bytes"]>
       (<["content-range" := "bytes 0-1/188"]> (<["content-type" := "video/mp2t"]> ∅)))
    (Throw (mkError "terminated"))
    (Throw (mkError "terminated")).

(** The query [?url=https://a.com/1.ts&url=https://a.com/2.ts]. *)
Definition repeated : list string := [ "https://a.com/1.ts"; "https://a.com/2.ts" ].

(** The URL table of [Ref] with the comma-joined target of [repeated]. *)
Definition urls : list (string * option string * URL) :=
  ("https://a.com/1.ts,https://a.com/2.ts", None,
   mkURL "https://a.com/1.ts,https://a.com/2.ts" "a.com" "/1.ts,https://a.com/2.ts")
  :: Ref.urls.

Definition new_URL (input : string) (base : option string) : result URL :=
  Ref.lookupURL urls input base.

End Cases.

(* ===================================================================== *)
(** * Facts about the string primitives *)
(* ===================================================================== *)

Section StringFacts.
Import JS.

Lemma append_nil_l (s : string) : EmptyString ++ s = s.
Proof. reflexivity. Qed.

Lemma append_nil_r (s : string) : s ++ EmptyString = s.
Proof. induction s as [|c s IH]; simpl; [reflexivity | now rewrite IH]. Qed.

Lemma append_assoc (a b c : string) : (a ++ b) ++ c = a ++ b ++ c.
Proof. induction a as [|x a IH]; simpl; [reflexivity | now rewrite IH]. Qed.

Lemma append_cons (c : ascii) (a b : string) : String c a ++ b = String c (a ++ b).
Proof. reflexivity. Qed.

Lemma length_append (a b : string) :
  String.length (a ++ b) = (String.length a + String.length b)%nat.
Proof. induction a as [|x a IH]; simpl; [reflexivity | now rewrite IH]. Qed.

Lemma startsWith_nil (s : string) : startsWith s EmptyString = true.
Proof. destruct s; reflexivity. Qed.

Lemma startsWith_append (p s : string) : startsWith (p ++ s) p = true.
Proof.
  induction p as [|c p IH]; simpl; [reflexivity|].
  now rewrite Ascii.eqb_refl, IH.
Qed.

Lemma startsWith_split (s p : string) :
  startsWith s p = true <-> exists r, s = p ++ r.
Proof.
  split.
  - revert s. induction p as [|c p IH]; intros s H.
    + now exists s.
    + destruct s as [|a s]; simpl in H; [discriminate|].
      apply andb_true_iff in H as [Hc Hp].
      apply Ascii.eqb_eq in Hc as ->.
      destruct (IH _ Hp) as [r ->]. now exists r.
  - intros [r ->]. apply startsWith_append.
Qed.

Lemma dropPrefix_startsWith (s p : string) :
  dropPrefix s p = None <-> startsWith s p = false.
Proof.
  revert s. induction p as [|c p IH]; intros s; simpl.
  - split; intros H; discriminate H.
  - destruct s as [|a s]; [tauto|].
    destruct (Ascii.eqb a c); simpl; [apply IH | tauto].
Qed.

Lemma dropPrefix_append (p s : string) : dropPrefix (p ++ s) p = Some s.
Proof.
  induction p as [|c p IH]; simpl; [reflexivity|].
  now rewrite Ascii.eqb_refl.
Qed.

Lemma includes_unfold (s p : string) :
  includes s p =
  startsWith s p || match s with EmptyString => false | String _ s' => includes s' p end.
Proof. destruct s; reflexivity. Qed.

(** [includes] is the substring relation. *)
Lemma includes_split (s p : string) :
  includes s p = true <-> exists a b, s = a ++ p ++ b.
Proof.
  split.
  - induction s as [|c s IH]; rewrite includes_unfold; intros H.
    + rewrite orb_false_r in H. apply startsWith_split in H as [r ->].
      now exists EmptyString, r.
    + apply orb_true_iff in H as [H|H].
      * apply startsWith_split in H as [r Hr]. exists EmptyString, r. exact Hr.
      * destruct (IH H) as (a & b & ->). now exists (String c a), b.
  - intros (a & b & ->). induction a as [|c a IH].
    + rewrite includes_unfold. simpl append. now rewrite startsWith_append.
    + rewrite append_cons, includes_unfold. cbv beta iota. rewrite IH. apply orb_true_r.
Qed.

Lemma includes_cons_false (c : ascii) (s p : string) :
  includes (String c s) p = false -> includes s p = false.
Proof. rewrite includes_unfold. intros H. now apply orb_false_iff in H as [_ H]. Qed.

Lemma includes_startsWith_false (s p : string) :
  includes s p = false -> startsWith s p = false.
Proof. rewrite includes_unfold. intros H. now apply orb_false_iff in H as [H _]. Qed.

Lemma allChars_append (p : ascii -> bool) (a b : string) :
  allChars p (a ++ b) = allChars p a && allChars p b.
Proof. induction a as [|c a IH]; simpl; [reflexivity | now rewrite IH, andb_assoc]. Qed.

Lemma allChars_impl (p q : ascii -> bool) (s : string) :
  (forall c, p c = true -> q c = true) -> allChars p s = true -> allChars q s = true.
Proof.
  intros Hpq. induction s as [|c s IH]; simpl; [reflexivity|].
  intros H. apply andb_true_iff in H as [Hc Hs]. now rewrite (Hpq _ Hc), IH.
Qed.

(** A text without line feed, said with the source's own [includes]. *)
Lemma includes_LF (s : string) :
  includes s (String LF EmptyString) = false <-> allChars notLF s = true.
Proof.
  induction s as [|c s IH]; simpl; [tauto|].
  rewrite andb_true_r. unfold notLF at 1.
  destruct (Ascii.eqb c LF); simpl; [split; intros H; discriminate H | exact IH].
Qed.

End StringFacts.

Section LineFacts.
Import JS.

(** Induction on the length of a string, for the functions that look two
    or three characters ahead. *)
Lemma string_length_ind (P : string -> Prop) :
  (forall s, (forall t, (String.length t < String.length s)%nat -> P t) -> P s) ->
  forall s, P s.
Proof.
  intros step s.
  assert (H : forall n t, (String.length t < n)%nat -> P t).
  { induction n as [|n IH]; intros t Ht; [lia|].
    apply step. intros u Hu. apply IH. lia. }
  apply (H (S (String.length s))). lia.
Qed.

Lemma splitLines_cons (s : string) : exists l ls, splitLines s = l :: ls.
Proof.
  induction s as [s IH] using string_length_ind.
  destruct s as [|c s]; simpl; [eauto|].
  destruct (Ascii.eqb c LF); [eauto|].
  destruct (IH s) as (l & ls & E); [simpl; lia|]. rewrite E.
  destruct (Ascii.eqb c CR); [|eauto].
  destruct s as [|c' s]; [eauto|].
  destruct (Ascii.eqb c' LF); eauto.
Qed.

(** No line produced by the split holds a line feed. *)
Lemma splitLines_noLF (s : string) :
  Forall (fun l => allChars notLF l = true) (splitLines s).
Proof.
  induction s as [s IH] using string_length_ind.
  destruct s as [|c s]; simpl; [repeat constructor|].
  destruct (Ascii.eqb c LF) eqn:Ec.
  { constructor; [reflexivity|]. apply IH. simpl. lia. }
  assert (Hcons : Forall (fun l => allChars notLF l = true)
                    match splitLines s with
                    | l :: ls => String c l :: ls
                    | [] => [String c EmptyString]
                    end).
  { assert (Hs := IH s ltac:(simpl; lia)).
    destruct (splitLines s) as [|l ls].
    - constructor; [|constructor]. simpl. unfold notLF. now rewrite Ec.
    - inversion Hs; subst. constructor; [|assumption].
      simpl. unfold notLF at 1. now rewrite Ec. }
  destruct (Ascii.eqb c CR); [|exact Hcons].
  destruct s as [|c' s]; [exact Hcons|].
  destruct (Ascii.eqb c' LF); [|exact Hcons].
  constructor; [reflexivity|]. apply IH. simpl. lia.
Qed.

Lemma splitLF_noLF (l : string) : allChars notLF l = true -> splitLF l = [l].
Proof.
  induction l as [|c l IH]; simpl; [reflexivity|].
  intros H. apply andb_true_iff in H as [Hc Hl]. unfold notLF in Hc.
  destruct (Ascii.eqb c LF); [discriminate|]. now rewrite IH.
Qed.

Lemma splitLF_append (l r : string) :
  allChars notLF l = true ->
  splitLF (l ++ String LF r) = l :: splitLF r.
Proof.
  induction l as [|c l IH]; simpl.
  - intros _. reflexivity.
  - intros H. apply andb_true_iff in H as [Hc Hl]. unfold notLF in Hc.
    destruct (Ascii.eqb c LF); [discriminate|]. now rewrite IH.
Qed.

Lemma join_cons (sep l l' : string) (ls : list string) :
  join sep (l :: l' :: ls) = l ++ sep ++ join sep (l' :: ls).
Proof. reflexivity. Qed.

(** Joining with line feeds and splitting on them again gives the lines
    back, as long as no line holds a line feed. *)
Lemma splitLF_join (l : string) (ls : list string) :
  Forall (fun l => allChars notLF l = true) (l :: ls) ->
  splitLF (join (String LF EmptyString) (l :: ls)) = l :: ls.
Proof.
  revert l. induction ls as [|l' ls IH]; intros l H; inversion H; subst.
  - simpl. now apply splitLF_noLF.
  - rewrite join_cons.
    transitivity (l :: splitLF (join (String LF EmptyString) (l' :: ls))).
    + now apply (splitLF_append l).
    + now rewrite IH.
Qed.

End LineFacts.

Section CodecFacts.
Import JS.

Lemma encodeByte_chars (c : ascii) : allChars uriChar (encodeByte c) = true.
Proof. destruct c as [[] [] [] [] [] [] [] []]; vm_compute; reflexivity. Qed.

Lemma encodeURIComponent_chars (s : string) :
  allChars uriChar (encodeURIComponent s) = true.
Proof.
  induction s as [|c s IH]; simpl; [reflexivity|].
  now rewrite allChars_append, encodeByte_chars, IH.
Qed.

Lemma uriChar_notLF (c : ascii) : uriChar c = true -> notLF c = true.
Proof. destruct c as [[] [] [] [] [] [] [] []]; vm_compute; intros H; congruence. Qed.

Lemma uriChar_notDQ (c : ascii) : uriChar c = true -> notDQ c = true.
Proof. destruct c as [[] [] [] [] [] [] [] []]; vm_compute; intros H; congruence. Qed.

Lemma decode_encodeByte (c : ascii) (r : string) :
  decodeURIComponent (encodeByte c ++ r) =
  match decodeURIComponent r with
  | Some x => Some (String c x)
  | None => None
  end.
Proof. destruct c as [[] [] [] [] [] [] [] []]; reflexivity. Qed.

Lemma decode_encode (s : string) :
  decodeURIComponent (encodeURIComponent s) = Some s.
Proof.
  induction s as [|c s IH]; [reflexivity|].
  cbn [encodeURIComponent]. now rewrite decode_encodeByte, IH.
Qed.

(** X5. Percent-decoding undoes [encodeURIComponent], whose output is made
    of unreserved characters and percent signs only: no separator of a
    query string, no quote, no white space. *)
Theorem encodeURIComponent_roundtrip (s : string) :
  decodeURIComponent (encodeURIComponent s) = Some s
  /\ allChars uriChar (encodeURIComponent s) = true.
Proof. split; [apply decode_encode | apply encodeURIComponent_chars]. Qed.

End CodecFacts.

Section ReplaceFacts.
Import JS.

Variable fn : string -> string -> string.

Lemma spanNotQuote_length (s v r : string) :
  spanNotQuote s = (v, r) -> String.length s = (String.length v + String.length r)%nat.
Proof.
  revert v r. induction s as [|c s IH]; simpl; intros v r H.
  - now inversion H.
  - destruct (Ascii.eqb c DQ); [now inversion H|].
    destruct (spanNotQuote s) as [v' r'] eqn:E. inversion H; subst.
    simpl. now rewrite (IH v' r).
Qed.

Lemma dropPrefix_length (s p r : string) :
  dropPrefix s p = Some r -> String.length s = (String.length p + String.length r)%nat.
Proof.
  revert s. induction p as [|c p IH]; simpl; intros s H.
  - now inversion H.
  - destruct s as [|a s]; [discriminate|].
    destruct (Ascii.eqb a c); [|discriminate]. simpl. now rewrite (IH _ H).
Qed.

(** A match consumes at least the attribute opening. *)
Lemma matchURI_length (s uri rest : string) :
  matchURI s = Some (uri, rest) -> (String.length rest < String.length s)%nat.
Proof.
  unfold matchURI. destruct (dropPrefix s URI_OPEN) as [r|] eqn:Ed; [|discriminate].
  destruct (spanNotQuote r) as [v r'] eqn:Es.
  destruct v as [|c v]; [discriminate|]. destruct r' as [|c' r']; [discriminate|].
  intros H. inversion H; subst.
  apply dropPrefix_length in Ed. apply spanNotQuote_length in Es.
  simpl in *. lia.
Qed.

(** Fuel beyond the length of the text changes nothing. *)
Lemma replaceURI_fuel_enough (n m : nat) (s : string) :
  (String.length s < n)%nat -> (String.length s < m)%nat ->
  replaceURI_fuel n fn s = replaceURI_fuel m fn s.
Proof.
  revert m s. induction n as [|n IH]; intros m s Hn Hm; [lia|].
  destruct m as [|m]; [lia|]. simpl.
  destruct (matchURI s) as [[uri rest]|] eqn:E.
  - apply matchURI_length in E. f_equal. apply IH; lia.
  - destruct s as [|c s]; [reflexivity|]. simpl in *. f_equal. apply IH; lia.
Qed.

(** The scan, one step at a time. *)
Lemma replaceURI_unfold (s : string) :
  replaceURI fn s =
  match matchURI s with
  | Some (uri, rest) =>
      fn (URI_OPEN ++ uri ++ String DQ EmptyString) uri ++ replaceURI fn rest
  | None =>
      match s with
      | EmptyString => EmptyString
      | String c s' => String c (replaceURI fn s')
      end
  end.
Proof.
  unfold replaceURI at 1. cbn [replaceURI_fuel].
  destruct (matchURI s) as [[uri rest]|] eqn:E.
  - apply matchURI_length in E. f_equal. unfold replaceURI.
    apply replaceURI_fuel_enough; lia.
  - destruct s as [|c s]; reflexivity.
Qed.

Lemma matchURI_None (s : string) : startsWith s URI_OPEN = false -> matchURI s = None.
Proof.
  intros H. unfold matchURI. apply dropPrefix_startsWith in H. now rewrite H.
Qed.

Lemma spanNotQuote_value (v rest : string) :
  allChars notDQ v = true ->
  spanNotQuote (v ++ String DQ rest) = (v, String DQ rest).
Proof.
  induction v as [|c v IH]; simpl; intros H.
  - reflexivity.
  - apply andb_true_iff in H as [Hc Hv]. unfold notDQ in Hc.
    destruct (Ascii.eqb c DQ); [discriminate|]. now rewrite IH.
Qed.

(** The expression matches a well-formed attribute that starts the text. *)
Lemma matchURI_attribute (v rest : string) :
  v <> EmptyString -> allChars notDQ v = true ->
  matchURI (URI_OPEN ++ v ++ String DQ EmptyString ++ rest) = Some (v, rest).
Proof.
  intros Hne Hv. unfold matchURI. rewrite dropPrefix_append.
  change (v ++ String DQ EmptyString ++ rest) with (v ++ String DQ rest).
  rewrite spanNotQuote_value by assumption.
  destruct v; [contradiction | reflexivity].
Qed.

(** The opening cannot start inside a text that does not hold it and end in
    an opening that follows: no proper suffix of the opening is a prefix
    of it. *)
Lemma startsWith_straddle (c : ascii) (p x : string) :
  startsWith (String c p) URI_OPEN = false ->
  startsWith (String c p ++ URI_OPEN ++ x) URI_OPEN = false.
Proof.
  unfold URI_OPEN. simpl.
  destruct (Ascii.eqb c "U"); [|reflexivity]. simpl.
  destruct p as [|c2 p]; [reflexivity|]. simpl.
  destruct (Ascii.eqb c2 "R"); [|reflexivity]. simpl.
  destruct p as [|c3 p]; [reflexivity|]. simpl.
  destruct (Ascii.eqb c3 "I"); [|reflexivity]. simpl.
  destruct p as [|c4 p]; [reflexivity|]. simpl.
  destruct (Ascii.eqb c4 "="); [|reflexivity]. simpl.
  destruct p as [|c5 p]; [reflexivity|]. simpl.
  destruct (Ascii.eqb c5 DQ); [discriminate | reflexivity].
Qed.

(** Text without an opening is copied up to the first attribute, which is
    replaced; the scan resumes after its closing quote. *)
Lemma replaceURI_attribute (p v rest : string) :
  includes p URI_OPEN = false -> v <> EmptyString -> allChars notDQ v = true ->
  replaceURI fn (p ++ URI_OPEN ++ v ++ String DQ EmptyString ++ rest) =
  p ++ fn (URI_OPEN ++ v ++ String DQ EmptyString) v ++ replaceURI fn rest.
Proof.
  intros Hp Hne Hv. induction p as [|c p IH].
  - rewrite !append_nil_l, replaceURI_unfold, matchURI_attribute by assumption.
    reflexivity.
  - rewrite replaceURI_unfold, matchURI_None.
    + rewrite !append_cons. f_equal. apply IH. eapply includes_cons_false, Hp.
    + apply startsWith_straddle. now apply includes_startsWith_false.
Qed.

(** Text without an opening is copied as it is. *)
Lemma replaceURI_plain (s : string) :
  includes s URI_OPEN = false -> replaceURI fn s = s.
Proof.
  induction s as [|c s IH]; intros H.
  - reflexivity.
  - rewrite replaceURI_unfold, matchURI_None by now apply includes_startsWith_false.
    f_equal. apply IH. eapply includes_cons_false, H.
Qed.

Lemma dropPrefix_allChars (P : ascii -> bool) (s p r : string) :
  dropPrefix s p = Some r -> allChars P s = true -> allChars P r = true.
Proof.
  revert s. induction p as [|b p IH]; simpl; intros s Hd Hs.
  - now inversion Hd; subst.
  - destruct s as [|a s]; [discriminate|].
    destruct (Ascii.eqb a b); [|discriminate].
    simpl in Hs. apply andb_true_iff in Hs as [_ Hs]. eapply IH; eassumption.
Qed.

Lemma spanNotQuote_allChars (P : ascii -> bool) (s v r : string) :
  spanNotQuote s = (v, r) -> allChars P s = true -> allChars P r = true.
Proof.
  revert v. induction s as [|a s IH]; simpl; intros v Hspan Hs.
  - now inversion Hspan.
  - destruct (Ascii.eqb a DQ).
    + now inversion Hspan; subst.
    + destruct (spanNotQuote s) as [v1 r1] eqn:E1. inversion Hspan; subst.
      apply andb_true_iff in Hs as [_ Hs]. eapply IH; [reflexivity | exact Hs].
Qed.

Lemma matchURI_allChars (P : ascii -> bool) (s uri rest : string) :
  matchURI s = Some (uri, rest) -> allChars P s = true -> allChars P rest = true.
Proof.
  unfold matchURI. destruct (dropPrefix s URI_OPEN) as [r|] eqn:Ed; [|discriminate].
  destruct (spanNotQuote r) as [v r'] eqn:Es.
  destruct v as [|cv v]; [discriminate|]. destruct r' as [|c' r']; [discriminate|].
  intros H Hs. inversion H; subst.
  apply (dropPrefix_allChars P) in Ed; [|exact Hs].
  apply (spanNotQuote_allChars P) in Es; [|exact Ed].
  simpl in Es. now apply andb_true_iff in Es as [_ Es].
Qed.

(** A property of every character survives the replacement when the
    replacer only emits such characters. *)
Lemma replaceURI_allChars (P : ascii -> bool) (s : string) :
  (forall m u, allChars P (fn m u) = true) ->
  allChars P s = true -> allChars P (replaceURI fn s) = true.
Proof.
  intros Hfn. induction s as [s IH] using string_length_ind. intros Hs.
  rewrite replaceURI_unfold. destruct (matchURI s) as [[uri rest]|] eqn:E.
  - rewrite allChars_append, Hfn. simpl. apply IH.
    + eapply matchURI_length, E.
    + eapply matchURI_allChars; eassumption.
  - destruct s as [|c s]; [reflexivity|]. simpl in Hs |- *.
    apply andb_true_iff in Hs as [Hc Hs]. rewrite Hc. simpl.
    apply IH; [simpl; lia | exact Hs].
Qed.

End ReplaceFacts.

(* ===================================================================== *)
(** * The header policy resolver *)
(* ===================================================================== *)

Section Resolver.
Import JS Proxy.

(** The loop returns the headers of the first entry that matches, and the
    empty object when it runs off the end of the table. *)
Lemma getDomainHeaders_loop_first (entries : list (string * gmap string string))
      (hostname : string) :
  (exists pre domain headers post,
      entries = (pre ++ (domain, headers) :: post)%list /\
      Forall (fun e => includes hostname (fst e) = false) pre /\
      includes hostname domain = true /\
      getDomainHeaders_loop entries hostname = headers)
  \/ (Forall (fun e => includes hostname (fst e) = false) entries /\
      getDomainHeaders_loop entries hostname = ∅).
Proof.
  induction entries as [|[domain headers] rest IH]; simpl.
  - right. split; [constructor | reflexivity].
  - destruct (includes hostname domain) eqn:E.
    + left. exists [], domain, headers, rest. repeat split; [constructor | exact E].
    + destruct IH as [(pre & d & h & post & -> & Hpre & Hd & Hres) | [Hall Hres]].
      * left. exists ((domain, headers) :: pre), d, h, post.
        repeat split; [constructor; assumption | assumption | assumption].
      * right. split; [constructor; assumption | assumption].
Qed.

(** C7. For every hostname, [getDomainHeaders] walks the fixed table in its
    written order: either some entry is the first whose domain is a
    substring of the hostname and its header pair is returned, or no entry
    matches and the empty mapping is returned.  It is a total function.
    [hls.krussdomi.com] gets the [krussdomi.com] pair and
    [unknown.example.com] gets the empty mapping. *)
Theorem getDomainHeaders_first_match :
  (forall hostname : string,
      (exists pre domain headers post,
          DOMAIN_HEADERS = (pre ++ (domain, headers) :: post)%list /\
          Forall (fun e => includes hostname (fst e) = false) pre /\
          (exists a b, hostname = a ++ domain ++ b) /\
          getDomainHeaders hostname = headers)
      \/ (Forall (fun e => ~ exists a b, hostname = a ++ fst e ++ b) DOMAIN_HEADERS /\
          getDomainHeaders hostname = ∅))
  /\ getDomainHeaders "hls.krussdomi.com"
     = originReferer "https://hls.krussdomi.com" "https://hls.krussdomi.com/"
  /\ getDomainHeaders "unknown.example.com" = ∅.
Proof.
  split; [|split; reflexivity].
  intros hostname. unfold getDomainHeaders.
  destruct (getDomainHeaders_loop_first DOMAIN_HEADERS hostname)
    as [(pre & d & h & post & E & Hpre & Hd & Hres) | [Hall Hres]].
  - left. exists pre, d, h, post. repeat split; try assumption.
    now apply includes_split.
  - right. split; [|assumption].
    eapply Forall_impl; [exact Hall|]. intros e He Hex.
    apply includes_split in Hex. congruence.
Qed.

End Resolver.

(* ===================================================================== *)
(** * The scan of the attribute expression *)
(* ===================================================================== *)

Section ScanFacts.
Import JS Shape.

Lemma dropPrefix_Some (s p r : string) : dropPrefix s p = Some r -> s = p ++ r.
Proof.
  revert s. induction p as [|c p IH]; simpl; intros s H.
  - now inversion H.
  - destruct s as [|a s]; [discriminate|].
    destruct (Ascii.eqb a c) eqn:E; [|discriminate].
    apply Ascii.eqb_eq in E as ->. now rewrite (IH _ H).
Qed.

Lemma spanNotQuote_all (v : string) :
  allChars notDQ v = true -> spanNotQuote v = (v, EmptyString).
Proof.
  induction v as [|c v IH]; simpl; intros H; [reflexivity|].
  apply andb_true_iff in H as [Hc Hv]. unfold notDQ in Hc.
  destruct (Ascii.eqb c DQ); [discriminate|]. now rewrite IH.
Qed.

(** What the greedy class splits off: a run without a quote, and a rest
    that is empty or begins with the quote. *)
Lemma spanNotQuote_split (s v r : string) :
  spanNotQuote s = (v, r) ->
  s = v ++ r /\ allChars notDQ v = true
  /\ (r = EmptyString \/ exists r', r = String DQ r').
Proof.
  revert v r. induction s as [|c s IH]; simpl; intros v r H.
  - inversion H; subst. repeat split. now left.
  - destruct (Ascii.eqb c DQ) eqn:E.
    + inversion H; subst. apply Ascii.eqb_eq in E as ->.
      repeat split. right. now eexists.
    + destruct (spanNotQuote s) as [v' r'] eqn:Es. inversion H; subst.
      destruct (IH _ _ eq_refl) as (-> & Hv & Hr).
      repeat split; [|exact Hr]. simpl. unfold notDQ at 1. now rewrite E.
Qed.

(** An attempt that succeeds has met an attribute. *)
Lemma matchURI_Some (s v rest : string) :
  matchURI s = Some (v, rest) ->
  s = URI_OPEN ++ v ++ String DQ EmptyString ++ rest
  /\ v <> EmptyString /\ allChars notDQ v = true.
Proof.
  unfold matchURI. destruct (dropPrefix s URI_OPEN) as [r|] eqn:Ed; [|discriminate].
  destruct (spanNotQuote r) as [v' r'] eqn:Es.
  destruct v' as [|c v']; [discriminate|]. destruct r' as [|c' r']; [discriminate|].
  intros H. inversion H; subst.
  apply dropPrefix_Some in Ed. destruct (spanNotQuote_split _ _ _ Es) as (-> & Hv & Hr).
  destruct Hr as [Hr | [r' Hr]]; [discriminate|]. inversion Hr; subst.
  split; [reflexivity|]. split; [intros Hx; discriminate Hx | exact Hv].
Qed.

(** An attempt at an opening fails exactly when the value is empty or
    never closed. *)
Lemma matchURI_opening (value : string) :
  matchURI (URI_OPEN ++ value) = None
  <-> startsWith value (String DQ EmptyString) || allChars notDQ value = true.
Proof.
  unfold matchURI. rewrite dropPrefix_append.
  destruct value as [|c value]; [simpl; tauto|].
  cbn [spanNotQuote startsWith allChars]. unfold notDQ at 1.
  destruct (Ascii.eqb c DQ) eqn:E; cbn [negb andb orb].
  - destruct value; simpl; tauto.
  - destruct (spanNotQuote value) as [v r] eqn:Es.
    destruct (spanNotQuote_split _ _ _ Es) as (-> & Hv & Hr).
    rewrite allChars_append, Hv. cbn [andb].
    destruct Hr as [-> | [r' ->]]; simpl.
    + tauto.
    + change (notDQ DQ) with false. simpl. split; intros H; discriminate H.
Qed.

Lemma startsWith_append_l (s p x : string) :
  startsWith s p = true -> startsWith (s ++ x) p = true.
Proof.
  intros H. apply startsWith_split in H as [r ->].
  rewrite append_assoc. apply startsWith_append.
Qed.

(** Text in which every opening is closed at once is copied up to the
    attribute that follows it. *)
Lemma replaceURI_quiet (fn : string -> string -> string) (p x : string) :
  quiet p = true ->
  replaceURI fn (p ++ URI_OPEN ++ x) = p ++ replaceURI fn (URI_OPEN ++ x).
Proof.
  induction p as [|c p IH]; intros Hq; [reflexivity|].
  cbn [quiet] in Hq. apply andb_true_iff in Hq as [Hhere Hq].
  assert (Hm : matchURI (String c p ++ URI_OPEN ++ x) = None).
  { destruct (dropPrefix (String c p) URI_OPEN) as [value|] eqn:Ed.
    - apply dropPrefix_Some in Ed. rewrite Ed, append_assoc.
      apply matchURI_opening. apply orb_true_iff. left.
      now apply startsWith_append_l.
    - apply matchURI_None, startsWith_straddle. now apply dropPrefix_startsWith. }
  rewrite replaceURI_unfold, Hm, !append_cons. f_equal. now apply IH.
Qed.

(** A tail in which every opening has an empty value or is never closed
    is copied. *)
Lemma replaceURI_dead (fn : string -> string -> string) (s : string) :
  dead s = true -> replaceURI fn s = s.
Proof.
  induction s as [|c s IH]; intros Hd; [reflexivity|].
  cbn [dead] in Hd. apply andb_true_iff in Hd as [Hhere Hd].
  assert (Hm : matchURI (String c s) = None).
  { destruct (dropPrefix (String c s) URI_OPEN) as [value|] eqn:Ed.
    - apply dropPrefix_Some in Ed. rewrite Ed. now apply matchURI_opening.
    - now apply matchURI_None, dropPrefix_startsWith. }
  rewrite replaceURI_unfold, Hm. f_equal. now apply IH.
Qed.

Lemma includes_quiet (s : string) : includes s URI_OPEN = false -> quiet s = true.
Proof.
  induction s as [|c s IH]; intros H; [reflexivity|].
  cbn [quiet]. apply includes_startsWith_false in H as Hs.
  apply dropPrefix_startsWith in Hs. rewrite Hs. cbn [andb].
  apply IH. eapply includes_cons_false, H.
Qed.

Lemma quiet_dead (s : string) : quiet s = true -> dead s = true.
Proof.
  induction s as [|c s IH]; intros H; [reflexivity|].
  cbn [quiet dead] in *. apply andb_true_iff in H as [Hh Hq].
  rewrite (IH Hq), andb_true_r.
  destruct (dropPrefix (String c s) URI_OPEN); [|reflexivity].
  now rewrite Hh.
Qed.

(** The scan of the expression reads every line as stretches of text each
    followed by an attribute, and a tail. *)
Lemma every_line_scans (line : string) :
  exists attrs tail,
    line = assemble id attrs tail /\ Forall scanned attrs /\ dead tail = true.
Proof.
  induction line as [line IH] using string_length_ind.
  destruct (matchURI line) as [[value rest]|] eqn:Em.
  - pose proof (matchURI_length _ _ _ Em) as Hlen.
    destruct (matchURI_Some _ _ _ Em) as (-> & Hne & Hv).
    destruct (IH rest Hlen) as (attrs & tail & -> & Hattrs & Htail).
    exists ((EmptyString, value) :: attrs), tail.
    repeat split; [|exact Htail].
    constructor; [|exact Hattrs]. repeat split; assumption.
  - destruct line as [|c line]; [exists [], EmptyString; repeat split; constructor|].
    destruct (IH line ltac:(simpl; lia)) as (attrs & tail & E & Hattrs & Htail).
    assert (Hhere : match dropPrefix (String c line) URI_OPEN with
                    | Some value =>
                        startsWith value (String DQ EmptyString) || allChars notDQ value
                    | None => true
                    end = true).
    { destruct (dropPrefix (String c line) URI_OPEN) as [value|] eqn:Ed; [|reflexivity].
      apply dropPrefix_Some in Ed. rewrite Ed in Em. now apply matchURI_opening. }
    destruct attrs as [|[text value] attrs].
    + exists [], (String c line). repeat split; [constructor|].
      cbn [dead]. rewrite Hhere. cbn [andb]. cbn [assemble] in E. now rewrite E.
    + exists ((String c text, value) :: attrs), tail.
      cbn [assemble] in *. rewrite E, append_cons. repeat split; [|exact Htail].
      apply Forall_cons in Hattrs as [(Hq & Hne & Hv) Hrest].
      constructor; [|exact Hrest]. repeat split; [|exact Hne|exact Hv].
      cbn [fst snd quiet] in *. rewrite Hq, andb_true_r.
      destruct (dropPrefix (String c text) URI_OPEN) as [after|] eqn:Ed; [|reflexivity].
      apply dropPrefix_Some in Ed.
      assert (Em' : matchURI (URI_OPEN ++ after ++ URI_OPEN ++ id value
                               ++ String DQ EmptyString ++ assemble id attrs tail) = None).
      { rewrite <- Em, E, <- append_cons, Ed, !append_assoc. reflexivity. }
      apply matchURI_opening in Em'. apply orb_true_iff in Em' as [Hs|Hall].
      * destruct after as [|a after]; [discriminate Hs|]. exact Hs.
      * rewrite !allChars_append in Hall.
        apply andb_true_iff in Hall as [_ Hall].
        apply andb_true_iff in Hall as [Hall _]. discriminate Hall.
Qed.

(** The replacer applied to a whole scanned line. *)
Lemma replaceURI_assemble (f : string -> string) (attrs : list (string * string))
      (tail : string) :
  Forall scanned attrs -> dead tail = true ->
  replaceURI (fun _ uri => URI_OPEN ++ f uri ++ String DQ EmptyString)
             (assemble id attrs tail)
  = assemble f attrs tail.
Proof.
  intros Hattrs Htail. induction Hattrs as [|[text value] rest (Ht & Hne & Hv) _ IH].
  - simpl. now apply replaceURI_dead.
  - cbn [assemble fst snd] in *. unfold id at 1.
    rewrite replaceURI_quiet by assumption.
    rewrite replaceURI_unfold, matchURI_attribute by assumption.
    rewrite IH, !append_assoc. reflexivity.
Qed.

End ScanFacts.

(* ===================================================================== *)
(** * The playlist rewriter *)
(* ===================================================================== *)

Section Rewriter.
Import JS Proxy Shape.

Variable new_URL : string -> option string -> result URL.

Lemma processM3U8_lines (content baseUrl targetUrl : string) :
  processM3U8 new_URL content baseUrl targetUrl =
  join (String LF EmptyString)
    (map (processLine new_URL baseUrl
            (substring targetUrl 0 (lastIndexOf targetUrl "/" + 1)))
         (splitLines content)).
Proof. reflexivity. Qed.

Lemma proxied_noLF (baseUrl abs : string) :
  allChars notLF baseUrl = true -> allChars notLF (proxied baseUrl abs) = true.
Proof.
  intros HB. unfold proxied. rewrite !allChars_append, HB. simpl.
  apply (allChars_impl uriChar); [apply uriChar_notLF | apply encodeURIComponent_chars].
Qed.

(** A rewritten line holds no line feed of its own. *)
Lemma processLine_noLF (baseUrl base line : string) :
  allChars notLF baseUrl = true -> allChars notLF line = true ->
  allChars notLF (processLine new_URL baseUrl base line) = true.
Proof.
  intros HB Hl. unfold processLine.
  destruct (includes line URI_OPEN).
  - apply replaceURI_allChars; [|exact Hl].
    intros _ u. rewrite !allChars_append, proxied_noLF by exact HB. reflexivity.
  - destruct (_ && _); [|exact Hl].
    destruct (segmentAbs new_URL base (trim line)); [|exact Hl].
    now apply proxied_noLF.
Qed.

(** The proxy base the handler builds from a [Host] header holds no line
    feed, a header value holding none. *)
Lemma handler_base_noLF (host : string) :
  includes host (String LF EmptyString) = false ->
  includes ("https://" ++ host ++ "/api/proxy") (String LF EmptyString) = false.
Proof.
  intros H. apply includes_LF. apply includes_LF in H.
  rewrite !allChars_append, H. reflexivity.
Qed.

(** C9.  [processM3U8] keeps the line structure of every input text:
    splitting the output on line feeds gives, position by position, the
    image of each input line (the input being split on line feed or
    carriage return plus line feed), so the two texts have the same number
    of lines and no line is dropped, added or moved.  The proxy base is
    one without a line feed, as is every base the one caller of the
    rewriter builds ([handler_base_noLF]). *)
Theorem processM3U8_line_structure (content baseUrl targetUrl : string) :
  includes baseUrl (String LF EmptyString) = false ->
  splitLF (processM3U8 new_URL content baseUrl targetUrl)
  = map (processLine new_URL baseUrl
           (substring targetUrl 0 (lastIndexOf targetUrl "/" + 1)))
        (splitLines content)
  /\ List.length (splitLF (processM3U8 new_URL content baseUrl targetUrl))
     = List.length (splitLines content).
Proof.
  intros HB. apply includes_LF in HB.
  assert (E : splitLF (processM3U8 new_URL content baseUrl targetUrl)
              = map (processLine new_URL baseUrl
                       (substring targetUrl 0 (lastIndexOf targetUrl "/" + 1)))
                    (splitLines content)).
  { rewrite processM3U8_lines.
    pose proof (splitLines_noLF content) as Hno.
    destruct (splitLines_cons content) as (l & ls & El). rewrite El in *.
    cbn [map]. apply splitLF_join.
    inversion Hno; subst. constructor.
    - now apply processLine_noLF.
    - apply Forall_map. eapply Forall_impl; [eassumption|].
      intros x Hx. now apply processLine_noLF. }
  split; [exact E|]. now rewrite E, length_map.
Qed.

(** The segment branch, taken apart. *)
Lemma processLine_segment (baseUrl base line : string) :
  includes line URI_OPEN = false ->
  trim line <> EmptyString ->
  startsWith (trim line) "#" = false ->
  startsWith (trim line) baseUrl = false ->
  processLine new_URL baseUrl base line =
  match segmentAbs new_URL base (trim line) with
  | Ok abs => proxied baseUrl abs
  | Throw _ => line
  end.
Proof.
  intros Huri Hne Hhash Hbase. unfold processLine. rewrite Huri, Hhash, Hbase.
  destruct (trim line); [contradiction | reflexivity].
Qed.

Lemma processLine_passthrough (baseUrl base line : string) :
  includes line URI_OPEN = false ->
  isEmpty (trim line) || startsWith (trim line) "#" || startsWith (trim line) baseUrl = true ->
  processLine new_URL baseUrl base line = line.
Proof.
  intros Huri H. unfold processLine. rewrite Huri.
  destruct (isEmpty (trim line)); [reflexivity|].
  destruct (startsWith (trim line) "#"); [reflexivity|].
  simpl in H. now rewrite H.
Qed.

(** X3. Comment and tag lines without an attribute, blank lines and lines
    that already point at the proxy come out byte for byte. *)
Theorem passthrough_lines (baseUrl base line : string) :
  includes line URI_OPEN = false ->
  isEmpty (trim line) || startsWith (trim line) "#" || startsWith (trim line) baseUrl = true ->
  processLine new_URL baseUrl base line = line.
Proof. apply processLine_passthrough. Qed.

(** C2, as the code has it.  For every line that holds no quoted [URI=]
    attribute opening and whose trimmed text is non-empty, does not start
    with [#] and does not start with the proxy base URL, the whole line is
    replaced by the base, [?url=] and the percent-encoded absolute URL,
    where the absolute URL is the trimmed text itself when it starts with
    the four characters [http], the trimmed text after [https:] when it
    starts with two slashes, and otherwise the [href] of [new URL(trimmed,
    base)]; when that constructor throws the line is returned as it was. *)
Theorem segment_line_rewrite (baseUrl base line : string) :
  includes line URI_OPEN = false ->
  trim line <> EmptyString ->
  startsWith (trim line) "#" = false ->
  startsWith (trim line) baseUrl = false ->
  (startsWith (trim line) "http" = true ->
   processLine new_URL baseUrl base line
   = baseUrl ++ "?url=" ++ encodeURIComponent (trim line))
  /\ (startsWith (trim line) "http" = false ->
      startsWith (trim line) "//" = true ->
      processLine new_URL baseUrl base line
      = baseUrl ++ "?url=" ++ encodeURIComponent ("https:" ++ trim line))
  /\ (startsWith (trim line) "http" = false ->
      startsWith (trim line) "//" = false ->
      match new_URL (trim line) (Some base) with
      | Ok u =>
          processLine new_URL baseUrl base line
          = baseUrl ++ "?url=" ++ encodeURIComponent (href u)
      | Throw _ => processLine new_URL baseUrl base line = line
      end).
Proof.
  intros Huri Hne Hhash Hbase.
  rewrite (processLine_segment _ _ _ Huri Hne Hhash Hbase). unfold segmentAbs, proxied.
  repeat split.
  - intros ->. reflexivity.
  - intros -> ->. reflexivity.
  - intros -> ->. destruct (new_URL (trim line) (Some base)); reflexivity.
Qed.

(** C10. Every line the segment branch rewrites can be read back: the
    output is the proxy base, [?url=] and an encoded tail, and
    percent-decoding that tail gives exactly the absolute URL the branch
    resolved, so the follow-up request names that URL. *)
Theorem segment_rewrite_reversible (baseUrl base line : string) :
  includes line URI_OPEN = false ->
  processLine new_URL baseUrl base line <> line ->
  exists abs encoded,
    segmentAbs new_URL base (trim line) = Ok abs /\
    processLine new_URL baseUrl base line = baseUrl ++ "?url=" ++ encoded /\
    encoded = encodeURIComponent abs /\
    decodeURIComponent encoded = Some abs.
Proof.
  intros Huri Hchanged. unfold processLine in *. rewrite Huri in *.
  destruct (_ && _); [|contradiction].
  destruct (segmentAbs new_URL base (trim line)) as [abs|e]; [|contradiction].
  exists abs, (encodeURIComponent abs). repeat split. apply decode_encode.
Qed.

(** C3, as the code has it.  The scan of the expression reads every line
    as stretches of text, each followed by a quoted [URI=] attribute with a
    non-empty value, and a tail; an opening whose value is empty or never
    closed is no attribute and belongs to the text or the tail.  For every
    line that holds the opening, and however it is read that way, the line
    comes out with every attribute value replaced by the proxy base,
    [?url=] and the percent-encoded absolute value, and with every other
    character in place.  The absolute value is the value itself when it
    starts with the four characters [http], otherwise the [href] of
    [new URL(value, base)], and the value itself when that constructor
    throws; the rewriter returns a line in every case. *)
Theorem uri_attributes_rewrite (baseUrl base line : string) :
  includes line URI_OPEN = true ->
  (exists attrs tail,
      line = assemble id attrs tail /\ Forall scanned attrs /\ dead tail = true)
  /\ (forall attrs tail,
         line = assemble id attrs tail ->
         Forall scanned attrs ->
         dead tail = true ->
         processLine new_URL baseUrl base line
         = assemble
             (fun value =>
                baseUrl ++ "?url=" ++ encodeURIComponent (uriAbs new_URL base value))
             attrs tail)
  /\ (forall value,
        uriAbs new_URL base value =
        if startsWith value "http" then value
        else match new_URL value (Some base) with
             | Ok u => href u
             | Throw _ => value
             end).
Proof.
  intros Hinc. split; [apply every_line_scans|]. split; [|reflexivity].
  intros attrs tail E Hattrs Htail. unfold processLine. rewrite Hinc, E.
  now apply (replaceURI_assemble (fun value => proxied baseUrl (uriAbs new_URL base value))).
Qed.

End Rewriter.

(* ===================================================================== *)
(** * The rewriter on concrete playlists *)
(* ===================================================================== *)

Section RewriterExamples.
Import JS Proxy Shape.


(** The relative-resolution example of the specification. *)
Lemma segment_line_rewrite_seg1 :
  processM3U8 Ref.new_URL "seg1.ts" Ref.B "https://a.com/path/index.m3u8"
  = Ref.B ++ "?url=https%3A%2F%2Fa.com%2Fpath%2Fseg1.ts".
Proof.
  pose proof (segment_line_rewrite Ref.new_URL Ref.B "https://a.com/path/" "seg1.ts"
                eq_refl ltac:(discriminate) eq_refl eq_refl) as H.
  exact (proj2 (proj2 H) eq_refl eq_refl).
Defined.

(** The scheme-relative example of the specification. *)
Example segment_scheme_relative (new_URL : string -> option string -> result URL) :
  processM3U8 new_URL "//cdn.example.com/seg2.ts" Ref.B "https://a.com/path/index.m3u8"
  = Ref.B ++ "?url=" ++ encodeURIComponent "https://cdn.example.com/seg2.ts".
Proof. reflexivity. Qed.

(** The attribute example of the specification. *)
Lemma uri_attributes_rewrite_key :
  processM3U8 Ref.new_URL ("#EXT-X-KEY:METHOD=AES-128,URI=" ++ Ref.q ++ "key.bin" ++ Ref.q) Ref.B
              "https://a.com/p/idx.m3u8"
  = "#EXT-X-KEY:METHOD=AES-128,URI=" ++ Ref.q
    ++ Ref.B ++ "?url=https%3A%2F%2Fa.com%2Fp%2Fkey.bin" ++ Ref.q.
Proof.
  pose proof (uri_attributes_rewrite Ref.new_URL Ref.B "https://a.com/p/"
                ("#EXT-X-KEY:METHOD=AES-128,URI=" ++ Ref.q ++ "key.bin" ++ Ref.q) eq_refl)
    as H.
  refine (proj1 (proj2 H) [("#EXT-X-KEY:METHOD=AES-128,", "key.bin")] EmptyString
            eq_refl _ eq_refl).
  repeat constructor. discriminate.
Defined.

(** Two attributes on one line are both rewritten, the text around them
    stays. *)
Example uri_attributes_rewrite_two (new_URL : string -> option string -> result URL) :
  processM3U8 new_URL
    (" #X:URI=" ++ Ref.q ++ "http://k/1" ++ Ref.q ++ ",IV=0x1,URI=" ++ Ref.q ++ "http://k/2" ++ Ref.q ++ ",Z ")
    Ref.B "https://a.com/p/idx.m3u8"
  = " #X:URI=" ++ Ref.q ++ Ref.B ++ "?url=http%3A%2F%2Fk%2F1" ++ Ref.q
    ++ ",IV=0x1,URI=" ++ Ref.q ++ Ref.B ++ "?url=http%3A%2F%2Fk%2F2" ++ Ref.q ++ ",Z ".
Proof. reflexivity. Qed.

(** An opening inside a value: the value of the first opening runs up to
    the next double quote, which is the one of the second opening, so the
    first attribute is [x,URI=] and what follows it is tail. *)
Example opening_inside_value (new_URL : string -> option string -> result URL) :
  processLine new_URL Ref.B "https://a.com/p/"
    ("#EXT-X-KEY:URI=" ++ Ref.q ++ "x,URI=" ++ Ref.q ++ "http://k/1" ++ Ref.q)
  = "#EXT-X-KEY:URI=" ++ Ref.q
    ++ Ref.B ++ "?url=" ++ encodeURIComponent (uriAbs new_URL "https://a.com/p/" "x,URI=")
    ++ Ref.q ++ "http://k/1" ++ Ref.q.
Proof.
  unfold processLine. change (includes _ URI_OPEN) with true. cbv iota.
  apply (replaceURI_assemble
           (fun value => proxied Ref.B (uriAbs new_URL "https://a.com/p/" value))
           [("#EXT-X-KEY:", "x,URI=")] ("http://k/1" ++ Ref.q)).
  - repeat constructor. discriminate.
  - reflexivity.
Qed.

Lemma processM3U8_line_structure_example :
  let content := "#EXTM3U" ++ String CR (String LF "seg1.ts") ++ String LF EmptyString in
  splitLF (processM3U8 Ref.new_URL content Ref.B "https://a.com/path/index.m3u8")
  = map (processLine Ref.new_URL Ref.B
           (substring "https://a.com/path/index.m3u8" 0
              (lastIndexOf "https://a.com/path/index.m3u8" "/" + 1)))
        (splitLines content)
  /\ List.length (splitLF (processM3U8 Ref.new_URL content Ref.B "https://a.com/path/index.m3u8"))
     = List.length (splitLines content).
Proof.
  exact (processM3U8_line_structure Ref.new_URL _ Ref.B "https://a.com/path/index.m3u8" eq_refl).
Defined.

(** Why the base is taken without a line feed: a line feed in it would go
    into every rewritten line, one input line giving two output lines.  No
    [Host] header holds one, so the handler never builds such a base. *)
Remark base_with_line_feed :
  ~ (forall (new_URL : string -> option string -> result URL)
            (content baseUrl targetUrl : string),
        List.length (splitLF (processM3U8 new_URL content baseUrl targetUrl))
        = List.length (splitLines content)).
Proof.
  intros H.
  specialize (H Ref.new_URL "seg1.ts" ("https://p.example" ++ String LF "/api/proxy") Ref.T).
  vm_compute in H. discriminate H.
Qed.

Lemma segment_rewrite_reversible_seg1 :
  exists abs encoded,
    segmentAbs Ref.new_URL "https://a.com/path/" (trim "seg1.ts") = Ok abs /\
    processLine Ref.new_URL Ref.B "https://a.com/path/" "seg1.ts" = Ref.B ++ "?url=" ++ encoded /\
    encoded = encodeURIComponent abs /\
    decodeURIComponent encoded = Some abs.
Proof.
  apply (segment_rewrite_reversible Ref.new_URL Ref.B "https://a.com/path/" "seg1.ts" eq_refl).
  vm_compute. discriminate.
Defined.

(** A key line through two passes.  The first pass proxies the attribute
    value; the second pass meets no guard in the attribute branch and
    proxies the proxied value again, so the two passes differ. *)
Lemma uri_attribute_reencoded (new_URL : string -> option string -> result URL) :
  let P := "#EXT-X-KEY:METHOD=AES-128,URI=" ++ Ref.q ++ "https://a.com/p/key.bin" ++ Ref.q in
  let T := "https://a.com/p/idx.m3u8" in
  processM3U8 new_URL P Ref.B T
  = "#EXT-X-KEY:METHOD=AES-128,URI=" ++ Ref.q
    ++ Ref.B ++ "?url=https%3A%2F%2Fa.com%2Fp%2Fkey.bin" ++ Ref.q
  /\ processM3U8 new_URL (processM3U8 new_URL P Ref.B T) Ref.B T
     = "#EXT-X-KEY:METHOD=AES-128,URI=" ++ Ref.q
       ++ Ref.B ++ "?url=https%3A%2F%2Fp.example%2Fapi%2Fproxy%3Furl%3Dhttps%253A%252F%252Fa.com%252Fp%252Fkey.bin" ++ Ref.q
  /\ processM3U8 new_URL (processM3U8 new_URL P Ref.B T) Ref.B T <> processM3U8 new_URL P Ref.B T.
Proof. repeat split. vm_compute. discriminate. Qed.

(** C2 as stated fails twice.  A line that holds an attribute opening is
    handled by the attribute branch even when it is no comment, so it is
    neither replaced as a whole nor left alone; and a relative reference
    that merely begins with [http] is never resolved against the base. *)
Lemma segment_line_rewrite_counterexample :
  ~ (forall (new_URL : string -> option string -> result URL) (baseUrl base line : string),
        trim line <> EmptyString ->
        startsWith (trim line) "#" = false ->
        startsWith (trim line) baseUrl = false ->
        (exists abs, processLine new_URL baseUrl base line
                     = baseUrl ++ "?url=" ++ encodeURIComponent abs)
        \/ processLine new_URL baseUrl base line = line)
  /\ ((exists e, Ref.new_URL "httpseg.ts" None = Throw e)
      /\ startsWith "httpseg.ts" "//" = false
      /\ (exists u, Ref.new_URL "httpseg.ts" (Some "https://a.com/path/") = Ok u
                    /\ href u = "https://a.com/path/httpseg.ts"
                    /\ processLine Ref.new_URL Ref.B "https://a.com/path/" "httpseg.ts"
                       <> Ref.B ++ "?url=" ++ encodeURIComponent (href u))
      /\ processLine Ref.new_URL Ref.B "https://a.com/path/" "httpseg.ts"
         = Ref.B ++ "?url=httpseg.ts").
Proof.
  split.
  - intros H.
    destruct (H Ref.new_URL Ref.B "https://a.com/path/"
                ("seg1.ts#URI=" ++ Ref.q ++ "http://k/" ++ Ref.q)
                ltac:(vm_compute; discriminate) eq_refl eq_refl) as [[abs Habs] | Hsame].
    + vm_compute in Habs. discriminate Habs.
    + vm_compute in Hsame. discriminate Hsame.
  - split; [eexists; reflexivity|]. split; [reflexivity|]. split; [|reflexivity].
    eexists. split; [reflexivity|]. split; [reflexivity|]. vm_compute. discriminate.
Qed.

(** C3 as stated fails for a value that is no absolute URL but begins with
    [http]: it is proxied as it stands, not resolved against the base. *)
Lemma uri_attributes_rewrite_counterexample :
  ~ (forall (new_URL : string -> option string -> result URL)
            (baseUrl base text value tail : string) (u : URL),
        scanned (text, value) ->
        dead tail = true ->
        (exists e, new_URL value None = Throw e) ->
        new_URL value (Some base) = Ok u ->
        processLine new_URL baseUrl base
          (text ++ URI_OPEN ++ value ++ String DQ EmptyString ++ tail)
        = text ++ URI_OPEN ++ baseUrl ++ "?url=" ++ encodeURIComponent (href u)
          ++ String DQ EmptyString ++ tail).
Proof.
  intros H.
  specialize (H Ref.new_URL Ref.B "https://a.com/p/" "#EXT-X-KEY:METHOD=AES-128," "httpkey.bin"
                EmptyString
                (mkURL "https://a.com/p/httpkey.bin" "a.com" "/p/httpkey.bin")).
  assert (Hs : scanned ("#EXT-X-KEY:METHOD=AES-128,", "httpkey.bin")).
  { repeat split. discriminate. }
  specialize (H Hs eq_refl (ex_intro _ _ eq_refl) eq_refl).
  vm_compute in H. discriminate H.
Qed.

End RewriterExamples.

(* ===================================================================== *)
(** * The request relay *)
(* ===================================================================== *)

Section Handler.
Import JS Proxy Relay.

Variable new_URL : string -> option string -> result URL.
Variable fetch : string -> RequestInit -> result Response.

Ltac step :=
  unfold Proxy.run, handler, try_catch, bind, lift, do_fetch, forwardHeader, isM3U8 in *;
  cbn beta iota in *.

Ltac split_all := repeat match goal with |- _ /\ _ => split end.

(** C5.  Every response of the handler of [api/proxy.ts] carries the four
    CORS headers with their fixed values: the statement holds for every
    request and every runtime, hence on each of the five paths, the
    preflight, the 400 answer, the rewritten playlist, the forwarded bytes
    and the 500 answer; each path sets the table and nothing set afterwards
    replaces an entry of it. *)
Theorem cors_on_every_path (req : Request) :
  cors_ok (res (snd (Proxy.run new_URL fetch req))).
Proof.
  step.
  destruct (strictEq (req_method req) "OPTIONS"); [vm_compute; split_all; reflexivity|].
  destruct (falsy (req_query req !! "url")); [vm_compute; split_all; reflexivity|].
  destruct (new_URL _ None) as [u|e]; [|vm_compute; split_all; reflexivity].
  destruct (fetch _ _) as [response|e]; [|vm_compute; split_all; reflexivity].
  destruct (req_query req !! "url") as [[target|targets]|];
    [|vm_compute; split_all; reflexivity..].
  cbn beta iota.
  destruct (endsWith target ".m3u8" || _).
  - destruct (resp_text response); vm_compute; split_all; reflexivity.
  - destruct (truthy (resp_headers response !! "content-type"));
      destruct (truthy (resp_headers response !! "content-length"));
      destruct (truthy (resp_headers response !! "content-range"));
      destruct (truthy (resp_headers response !! "accept-ranges"));
      destruct (resp_arrayBuffer response);
      vm_compute; split_all; reflexivity.
Qed.

(** The upstream traffic of one invocation: nothing before the target has
    been validated, then exactly one request. *)
Lemma handler_upstream (req : Request) :
  upstream (snd (Proxy.run new_URL fetch req)) =
  if strictEq (req_method req) "OPTIONS" then []
  else if falsy (req_query req !! "url") then []
  else
    match new_URL (toString (req_query req !! "url")) None with
    | Throw _ => []
    | Ok u => [(toString (req_query req !! "url"), fetchInit req (requestHeaders req u))]
    end.
Proof.
  step.
  destruct (strictEq (req_method req) "OPTIONS"); [reflexivity|].
  destruct (falsy (req_query req !! "url")); [reflexivity|].
  destruct (new_URL _ None) as [u|e]; [|reflexivity].
  destruct (fetch _ _) as [response|e]; [|reflexivity].
  destruct (req_query req !! "url") as [[target|targets]|]; [|reflexivity..].
  cbn beta iota.
  destruct (endsWith target ".m3u8" || _).
  - destruct (resp_text response); reflexivity.
  - destruct (truthy (resp_headers response !! "content-type"));
      destruct (truthy (resp_headers response !! "content-length"));
      destruct (truthy (resp_headers response !! "content-range"));
      destruct (truthy (resp_headers response !! "accept-ranges"));
      destruct (resp_arrayBuffer response);
      reflexivity.
Qed.


(** X1. Nothing escapes the handler: every invocation returns, and it has
    sent a response by then. *)
Theorem handler_returns (req : Request) :
  fst (Proxy.run new_URL fetch req) = Ok tt
  /\ exists body, res_body (res (snd (Proxy.run new_URL fetch req))) = Some body.
Proof.
  step.
  destruct (strictEq (req_method req) "OPTIONS"); [split; eauto|].
  destruct (falsy (req_query req !! "url")); [split; eauto|].
  destruct (new_URL _ None) as [u|e]; [|split; eauto].
  destruct (fetch _ _) as [response|e]; [|split; eauto].
  destruct (req_query req !! "url") as [[target|targets]|]; [|split; eauto..].
  cbn beta iota.
  destruct (endsWith target ".m3u8" || _).
  - destruct (resp_text response); split; eauto.
  - destruct (truthy (resp_headers response !! "content-type"));
      destruct (truthy (resp_headers response !! "content-length"));
      destruct (truthy (resp_headers response !! "content-range"));
      destruct (truthy (resp_headers response !! "accept-ranges"));
      destruct (resp_arrayBuffer response);
      split; eauto.
Qed.

(** The domain policy only ever contributes [origin] and [referer]. *)
Lemma getDomainHeaders_keys (hostname k : string) :
  k <> "origin" -> k <> "referer" -> getDomainHeaders hostname !! k = None.
Proof.
  intros Ho Hr. unfold getDomainHeaders, DOMAIN_HEADERS. cbn [getDomainHeaders_loop].
  repeat match goal with
         | |- context [if includes hostname ?d then _ else _] => destruct (includes hostname d)
         end;
    unfold originReferer; rewrite ?lookup_insert_ne, ?lookup_empty by congruence; reflexivity.
Qed.

(** X4. The upstream request never carries the caller's own headers: the
    user agent, accept and language headers are the fixed ones whatever the
    inbound request holds. *)
Theorem requestHeaders_fixed (req : Request) (url : URL) :
  requestHeaders req url !! "User-Agent"
  = Some "Mozilla/5.0 (Windows NT 10.0; Win64; x64) AppleWebKit/537.36"
  /\ requestHeaders req url !! "Accept" = Some "*/*"
  /\ requestHeaders req url !! "Accept-Language" = Some "en-US,en;q=0.9".
Proof.
  unfold requestHeaders, spread.
  set (defaults := <["Accept-Language" := _]> _).
  assert (H : forall k,
             k <> "origin" -> k <> "referer" -> k <> "Range" ->
             (if truthy (req_headers req !! "range")
              then <["Range" := template (req_headers req !! "range")]>
                     (getDomainHeaders (hostname url) ∪ defaults)
              else getDomainHeaders (hostname url) ∪ defaults) !! k = defaults !! k).
  { intros k Ho Hr HR.
    destruct (truthy (req_headers req !! "range"));
      rewrite ?lookup_insert_ne by congruence;
      now apply lookup_union_r, getDomainHeaders_keys. }
  split_all; rewrite H by discriminate; reflexivity.
Qed.

Ltac error_field :=
  eexists _, _; split; [reflexivity | left; reflexivity].

(** C4, as the code has it.  For every request other than OPTIONS: when
    the [url] parameter is missing or empty the answer is 400 with a JSON
    body that has an [error] field; when it is present but [new URL]
    rejects it the answer is 500, again with an [error] field; in both
    cases no upstream request is made. *)
Theorem missing_or_malformed_url (req : Request) :
  strictEq (req_method req) "OPTIONS" = false ->
  (falsy (req_query req !! "url") = true ->
   statusCode (res (snd (Proxy.run new_URL fetch req))) = 400%Z
   /\ error_body (res (snd (Proxy.run new_URL fetch req)))
   /\ upstream (snd (Proxy.run new_URL fetch req)) = [])
  /\ (falsy (req_query req !! "url") = false ->
      (exists e, new_URL (toString (req_query req !! "url")) None = Throw e) ->
      statusCode (res (snd (Proxy.run new_URL fetch req))) = 500%Z
      /\ error_body (res (snd (Proxy.run new_URL fetch req)))
      /\ upstream (snd (Proxy.run new_URL fetch req)) = []).
Proof.
  intros Hm. split.
  - intros Hf. rewrite handler_upstream, Hm, Hf. step. rewrite Hm, Hf.
    split_all; [reflexivity | error_field | reflexivity].
  - intros Hf [e He]. rewrite handler_upstream, Hm, Hf, He. step. rewrite Hm, Hf, He.
    split_all; [reflexivity | error_field | reflexivity].
Qed.

(** C6, as the code has it.  Once the upstream has answered a request for
    a single target string, the answer is treated as a playlist exactly
    when the target string itself, query and fragment included, ends in
    [.m3u8], or the upstream content type contains [mpegurl].  A playlist
    whose text can be read is answered with status 200 and the rewritten
    text; any other answer whose body can
    be read is forwarded with the upstream status and the very bytes of
    the upstream body. *)
Theorem playlist_classification (req : Request) (target : string) (u : URL)
        (response : Response) (text : string) (bytes : list Byte.byte) :
  strictEq (req_method req) "OPTIONS" = false ->
  req_query req !! "url" = Some (QString target) ->
  target <> EmptyString ->
  new_URL target None = Ok u ->
  fetch target (fetchInit req (requestHeaders req u)) = Ok response ->
  resp_text response = Ok text ->
  resp_arrayBuffer response = Ok bytes ->
  if endsWith target ".m3u8" || declares_mpegurl response
  then
    statusCode (res (snd (Proxy.run new_URL fetch req))) = 200%Z
    /\ res_body (res (snd (Proxy.run new_URL fetch req)))
       = Some (BodyText
                 (processM3U8 new_URL text
                    ("https://" ++ template (req_headers req !! "host") ++ "/api/proxy")
                    target))
  else
    statusCode (res (snd (Proxy.run new_URL fetch req))) = resp_status response
    /\ res_body (res (snd (Proxy.run new_URL fetch req))) = Some (BodyBytes bytes).
Proof.
  intros Hm Hq Hne Hu Hf Ht Hb. step. rewrite Hm, Hq. cbn [falsy toString].
  destruct target as [|c target]; [contradiction|]. cbn [isEmpty].
  rewrite Hu, Hf. cbn beta iota. unfold declares_mpegurl.
  destruct (endsWith (String c target) ".m3u8" || _).
  - rewrite Ht. split_all; reflexivity.
  - rewrite Hb.
    destruct (truthy (resp_headers response !! "content-type"));
      destruct (truthy (resp_headers response !! "content-length"));
      destruct (truthy (resp_headers response !! "content-range"));
      destruct (truthy (resp_headers response !! "accept-ranges"));
      split_all; reflexivity.
Qed.

(** C8, as the code has it.  A request for a single target string that
    [new URL] accepts and that carries a non-empty [Range] header makes
    exactly one upstream request, whose [Range] header is the inbound
    value.  When the upstream answer is not classified as a playlist and
    its body can be read, the response keeps the upstream status code
    whatever it is, 206 included, and forwards a non-empty upstream
    [Content-Range]. *)
Theorem range_forwarding (req : Request) (target range : string) (u : URL) :
  strictEq (req_method req) "OPTIONS" = false ->
  req_query req !! "url" = Some (QString target) ->
  target <> EmptyString ->
  new_URL target None = Ok u ->
  req_headers req !! "range" = Some range ->
  range <> EmptyString ->
  upstream (snd (Proxy.run new_URL fetch req))
  = [(target, fetchInit req (requestHeaders req u))]
  /\ init_headers (fetchInit req (requestHeaders req u)) !! "Range" = Some range
  /\ (forall (response : Response) (bytes : list Byte.byte),
        fetch target (fetchInit req (requestHeaders req u)) = Ok response ->
        endsWith target ".m3u8" || declares_mpegurl response = false ->
        resp_arrayBuffer response = Ok bytes ->
        statusCode (res (snd (Proxy.run new_URL fetch req))) = resp_status response
        /\ (forall cr, resp_headers response !! "content-range" = Some cr ->
                       cr <> EmptyString ->
                       getHeader (res (snd (Proxy.run new_URL fetch req))) "Content-Range"
                       = Some cr)).
Proof.
  intros Hm Hq Hne Hu Hr Hrne.
  assert (Hfalsy : falsy (req_query req !! "url") = false).
  { rewrite Hq. destruct target; [contradiction | reflexivity]. }
  split_all.
  - rewrite handler_upstream, Hm, Hfalsy, Hq. cbn [toString]. now rewrite Hu.
  - unfold fetchInit, requestHeaders. cbn [init_headers]. rewrite Hr.
    destruct range; [contradiction|]. cbn [truthy isEmpty negb template].
    apply lookup_insert_eq.
  - intros response bytes Hf Hc Hb. step. rewrite Hm, Hfalsy, Hq. cbn [toString].
    rewrite Hu, Hf. cbn beta iota. unfold declares_mpegurl in Hc. rewrite Hc, Hb.
    split.
    + destruct (truthy (resp_headers response !! "content-type"));
        destruct (truthy (resp_headers response !! "content-length"));
        destruct (truthy (resp_headers response !! "content-range"));
        destruct (truthy (resp_headers response !! "accept-ranges"));
        reflexivity.
    + intros cr Hcr Hcrne. rewrite Hcr.
      destruct cr; [contradiction|]. cbn [truthy isEmpty negb template].
      destruct (truthy (resp_headers response !! "content-type"));
        destruct (truthy (resp_headers response !! "content-length"));
        destruct (truthy (resp_headers response !! "accept-ranges"));
        vm_compute; reflexivity.
Qed.

End Handler.

(* ===================================================================== *)
(** * The relays on concrete requests *)
(* ===================================================================== *)

Section RelayExamples.
Import JS Proxy Relay.


(** A target that [new URL] rejects is answered with 500, not 400. *)
Lemma missing_or_malformed_url_counterexample :
  ~ (forall (new_URL : string -> option string -> result URL)
            (fetch : string -> RequestInit -> result Response) (req : Request),
        strictEq (req_method req) "OPTIONS" = false ->
        falsy (req_query req !! "url") = true
        \/ (exists e, new_URL (toString (req_query req !! "url")) None = Throw e) ->
        statusCode (res (snd (Proxy.run new_URL fetch req))) = 400%Z).
Proof.
  intros H.
  specialize (H Ref.new_URL Ref.offline (Ref.request "GET" "not-a-url" Ref.host) eq_refl
                (or_intror (ex_intro _ _ eq_refl))).
  vm_compute in H. discriminate H.
Qed.

Lemma missing_or_malformed_url_example :
  let missing := mkRequest (Some "GET") ∅ Ref.host in
  let malformed := Ref.request "GET" "not-a-url" Ref.host in
  (statusCode (res (snd (Proxy.run Ref.new_URL Ref.offline missing))) = 400%Z
   /\ error_body (res (snd (Proxy.run Ref.new_URL Ref.offline missing)))
   /\ upstream (snd (Proxy.run Ref.new_URL Ref.offline missing)) = [])
  /\ (statusCode (res (snd (Proxy.run Ref.new_URL Ref.offline malformed))) = 500%Z
      /\ error_body (res (snd (Proxy.run Ref.new_URL Ref.offline malformed)))
      /\ upstream (snd (Proxy.run Ref.new_URL Ref.offline malformed)) = []).
Proof.
  split.
  - exact (proj1 (missing_or_malformed_url Ref.new_URL Ref.offline
                    (mkRequest (Some "GET") ∅ Ref.host) eq_refl) eq_refl).
  - exact (proj2 (missing_or_malformed_url Ref.new_URL Ref.offline
                    (Ref.request "GET" "not-a-url" Ref.host) eq_refl)
                 eq_refl (ex_intro _ _ eq_refl)).
Defined.

(** A target whose path ends in [.m3u8] but whose string goes on with a
    query is not treated as a playlist. *)
Lemma playlist_classification_counterexample :
  ~ (forall (new_URL : string -> option string -> result URL)
            (fetch : string -> RequestInit -> result Response) (req : Request)
            (target : string) (u : URL) (response : Response) (text : string)
            (bytes : list Byte.byte),
        strictEq (req_method req) "OPTIONS" = false ->
        req_query req !! "url" = Some (QString target) ->
        target <> EmptyString ->
        new_URL target None = Ok u ->
        fetch target (fetchInit req (requestHeaders req u)) = Ok response ->
        resp_text response = Ok text ->
        resp_arrayBuffer response = Ok bytes ->
        (endsWith (pathname u) ".m3u8" || declares_mpegurl response = true
         <-> res_body (res (snd (Proxy.run new_URL fetch req)))
             = Some (BodyText
                       (processM3U8 new_URL text
                          ("https://" ++ template (req_headers req !! "host") ++ "/api/proxy")
                          target)))).
Proof.
  intros H.
  specialize (H Ref.new_URL (Ref.serve Ref.octets200)
                (Ref.request "GET" "https://a.com/v.m3u8?token=abc" Ref.host)
                "https://a.com/v.m3u8?token=abc"
                (mkURL "https://a.com/v.m3u8?token=abc" "a.com" "/v.m3u8")
                Ref.octets200 "seg1.ts"
                [Byte.x73; Byte.x65; Byte.x67; Byte.x31; Byte.x2e; Byte.x74; Byte.x73]
                eq_refl eq_refl ltac:(discriminate) eq_refl eq_refl eq_refl eq_refl).
  destruct H as [H _]. specialize (H eq_refl). vm_compute in H. discriminate H.
Qed.

Lemma playlist_classification_example :
  let req := Ref.request "GET" "https://a.com/path/index.m3u8" Ref.host in
  statusCode (res (snd (Proxy.run Ref.new_URL (Ref.serve Ref.octets200) req))) = 200%Z
  /\ res_body (res (snd (Proxy.run Ref.new_URL (Ref.serve Ref.octets200) req)))
     = Some (BodyText
               (processM3U8 Ref.new_URL "seg1.ts" "https://p.example/api/proxy"
                  "https://a.com/path/index.m3u8")).
Proof.
  exact (playlist_classification Ref.new_URL (Ref.serve Ref.octets200)
           (Ref.request "GET" "https://a.com/path/index.m3u8" Ref.host)
           "https://a.com/path/index.m3u8"
           (mkURL "https://a.com/path/index.m3u8" "a.com" "/path/index.m3u8")
           Ref.octets200 "seg1.ts"
           [Byte.x73; Byte.x65; Byte.x67; Byte.x31; Byte.x2e; Byte.x74; Byte.x73]
           eq_refl eq_refl ltac:(discriminate) eq_refl eq_refl eq_refl eq_refl).
Defined.

(** A ranged request for a playlist: the upstream answers 206 with a
    [Content-Range], the handler answers 200 without one. *)
Lemma range_forwarding_counterexample :
  ~ (forall (new_URL : string -> option string -> result URL)
            (fetch : string -> RequestInit -> result Response) (req : Request)
            (target range : string) (u : URL) (response : Response),
        strictEq (req_method req) "OPTIONS" = false ->
        req_query req !! "url" = Some (QString target) ->
        target <> EmptyString ->
        new_URL target None = Ok u ->
        req_headers req !! "range" = Some range ->
        range <> EmptyString ->
        fetch target (fetchInit req (requestHeaders req u)) = Ok response ->
        resp_status response = 206%Z ->
        statusCode (res (snd (Proxy.run new_URL fetch req))) = 206%Z
        /\ getHeader (res (snd (Proxy.run new_URL fetch req))) "Content-Range"
           = resp_headers response !! "content-range").
Proof.
  intros H.
  specialize (H Ref.new_URL (Ref.serve Ref.playlist206)
                (Ref.request "GET" "https://a.com/path/index.m3u8" Ref.ranged)
                "https://a.com/path/index.m3u8" "bytes=0-1023"
                (mkURL "https://a.com/path/index.m3u8" "a.com" "/path/index.m3u8")
                Ref.playlist206
                eq_refl eq_refl ltac:(discriminate) eq_refl eq_refl ltac:(discriminate)
                eq_refl eq_refl).
  destruct H as [H _]. vm_compute in H. discriminate H.
Qed.

(** The content type is compared as written: the common spelling with
    capital letters is not recognised, and the answer is forwarded. *)
Example capital_mpegURL_is_forwarded :
  let response :=
    mkResponse 200 (<["content-type" := "application/x-mpegURL"]> ∅) (Ok "seg1.ts") (Ok []) in
  res_body (res (snd (Proxy.run Ref.new_URL (Ref.serve response)
                        (Ref.request "GET" "https://a.com/v.m3u8?token=abc" Ref.host))))
  = Some (BodyBytes []).
Proof. reflexivity. Qed.

(** The upstream request for a host of the domain table: the fixed headers,
    the policy pair of the first matching entry, and the inbound range. *)
Example upstream_policy_headers :
  let req := Ref.request "GET" "https://hls.krussdomi.com/v/seg7.ts" Ref.ranged in
  exists init,
    upstream (snd (Proxy.run Ref.new_URL (Ref.serve Ref.segment206) req))
    = [("https://hls.krussdomi.com/v/seg7.ts", init)]
    /\ init_method init = Some "GET"
    /\ init_timeout init = Some 25000%Z
    /\ init_headers init !! "origin" = Some "https://hls.krussdomi.com"
    /\ init_headers init !! "referer" = Some "https://hls.krussdomi.com/"
    /\ init_headers init !! "Range" = Some "bytes=0-1023"
    /\ init_headers init !! "Accept" = Some "*/*".
Proof. eexists. repeat split. Qed.

Lemma range_forwarding_example :
  let req := Ref.request "GET" "https://a.com/path/seg1.ts" Ref.ranged in
  let u := mkURL "https://a.com/path/seg1.ts" "a.com" "/path/seg1.ts" in
  upstream (snd (Proxy.run Ref.new_URL (Ref.serve Ref.segment206) req))
  = [("https://a.com/path/seg1.ts", fetchInit req (requestHeaders req u))]
  /\ init_headers (fetchInit req (requestHeaders req u)) !! "Range" = Some "bytes=0-1023"
  /\ statusCode (res (snd (Proxy.run Ref.new_URL (Ref.serve Ref.segment206) req))) = 206%Z
  /\ getHeader (res (snd (Proxy.run Ref.new_URL (Ref.serve Ref.segment206) req)))
       "Content-Range"
     = Some "bytes 0-1/188".
Proof.
  pose proof (range_forwarding Ref.new_URL (Ref.serve Ref.segment206)
                (Ref.request "GET" "https://a.com/path/seg1.ts" Ref.ranged)
                "https://a.com/path/seg1.ts" "bytes=0-1023"
                (mkURL "https://a.com/path/seg1.ts" "a.com" "/path/seg1.ts")
                eq_refl eq_refl ltac:(discriminate) eq_refl eq_refl ltac:(discriminate))
    as (Hup & Hrange & Hfw).
  destruct (Hfw Ref.segment206 [Byte.x47; Byte.x40] eq_refl eq_refl eq_refl) as [Hst Hcr].
  split; [exact Hup|]. split; [exact Hrange|]. split; [exact Hst|].
  exact (Hcr "bytes 0-1/188" eq_refl ltac:(discriminate)).
Defined.

End RelayExamples.

(* ===================================================================== *)
(** * Idempotence where the guard applies *)
(* ===================================================================== *)

Section TrimFacts.
Import JS.

Lemma solid_lt (c : ascii) : solid c = true -> (N_of_ascii c < 128)%N.
Proof.
  unfold solid. intros H. apply andb_true_iff in H as [_ H]. now apply N.ltb_lt.
Qed.

Lemma solid_ws1 (c : ascii) : solid c = true -> ws1 c = false.
Proof.
  unfold solid. intros H. apply andb_true_iff in H as [H _]. now apply negb_true_iff.
Qed.

Ltac bytes_false n :=
  repeat match goal with
         | |- context [(n =? ?k)%N] =>
             replace (n =? k)%N with false by (symmetry; apply N.eqb_neq; lia)
         | |- context [(?k <=? n)%N] =>
             replace (k <=? n)%N with false by (symmetry; apply N.leb_gt; lia)
         end;
  cbn [andb orb]; rewrite ?andb_false_r; cbn [andb orb]; try reflexivity.

Lemma ws2_solid (c1 c : ascii) : solid c = true -> ws2 c1 c = false.
Proof.
  intros H. apply solid_lt in H. unfold ws2.
  set (n := N_of_ascii c) in *. bytes_false n.
Qed.

Lemma ws3_solid_last (c1 c2 c : ascii) : solid c = true -> ws3 c1 c2 c = false.
Proof.
  intros H. apply solid_lt in H. unfold ws3. cbv zeta.
  set (n := N_of_ascii c) in *. bytes_false n.
Qed.

Lemma ws3_solid_mid (c1 c c3 : ascii) : solid c = true -> ws3 c1 c c3 = false.
Proof.
  intros H. apply solid_lt in H. unfold ws3. cbv zeta.
  set (n := N_of_ascii c) in *. bytes_false n.
Qed.

Lemma trimStart_length (s : string) :
  (String.length (trimStart s) <= String.length s)%nat.
Proof.
  induction s as [s IH] using string_length_ind.
  destruct s as [|c1 s1]; [reflexivity|]. cbn [trimStart].
  destruct (ws1 c1).
  { specialize (IH s1 ltac:(simpl; lia)). simpl. lia. }
  destruct s1 as [|c2 s2]; [reflexivity|].
  destruct (ws2 c1 c2).
  { specialize (IH s2 ltac:(simpl; lia)). simpl. lia. }
  destruct s2 as [|c3 s3]; [reflexivity|].
  destruct (ws3 c1 c2 c3); [|reflexivity].
  specialize (IH s3 ltac:(simpl; lia)). simpl. lia.
Qed.

(** A text that does not start with white space still does not once a text
    starting with a solid character is appended. *)
Lemma trimStart_append (b : string) (c : ascii) (x : string) :
  b <> EmptyString -> trimStart b = b -> solid c = true ->
  trimStart (b ++ String c x) = b ++ String c x.
Proof.
  intros Hne Hb Hc.
  destruct b as [|c1 b1]; [contradiction|].
  assert (H1 : ws1 c1 = false).
  { destruct (ws1 c1) eqn:E; [|reflexivity].
    cbn [trimStart] in Hb. rewrite E in Hb.
    pose proof (trimStart_length b1) as Hl. rewrite Hb in Hl. simpl in Hl. lia. }
  destruct b1 as [|c2 b2].
  { cbn [append trimStart]. rewrite H1, (ws2_solid c1 c Hc).
    destruct x as [|c3 x]; [reflexivity|]. now rewrite (ws3_solid_mid c1 c c3 Hc). }
  assert (H2 : ws2 c1 c2 = false).
  { destruct (ws2 c1 c2) eqn:E; [|reflexivity].
    cbn [trimStart] in Hb. rewrite H1, E in Hb.
    pose proof (trimStart_length b2) as Hl. rewrite Hb in Hl. simpl in Hl. lia. }
  destruct b2 as [|c3 b3].
  { cbn [append trimStart]. now rewrite H1, H2, (ws3_solid_last c1 c2 c Hc). }
  assert (H3 : ws3 c1 c2 c3 = false).
  { destruct (ws3 c1 c2 c3) eqn:E; [|reflexivity].
    cbn [trimStart] in Hb. rewrite H1, H2, E in Hb.
    pose proof (trimStart_length b3) as Hl. rewrite Hb in Hl. simpl in Hl. lia. }
  cbn [append trimStart]. now rewrite H1, H2, H3.
Qed.

(** A text that ends in a solid character is not white space only. *)
Lemma trimStart_solid_end (t : string) (c : ascii) :
  solid c = true -> trimStart (t ++ String c EmptyString) <> EmptyString.
Proof.
  intros Hc. induction t as [t IH] using string_length_ind.
  destruct t as [|c1 t1].
  { cbn [append trimStart]. now rewrite (solid_ws1 c Hc). }
  cbn [append trimStart]. destruct (ws1 c1).
  { apply IH. simpl. lia. }
  destruct t1 as [|c2 t2].
  { cbn [append]. now rewrite (ws2_solid c1 c Hc). }
  cbn [append]. destruct (ws2 c1 c2).
  { apply IH. simpl. lia. }
  destruct t2 as [|c3 t3].
  { cbn [append]. now rewrite (ws3_solid_last c1 c2 c Hc). }
  cbn [append]. destruct (ws3 c1 c2 c3); [|discriminate].
  apply IH. simpl. lia.
Qed.

Lemma trimEnd_solid_end (t : string) (c : ascii) :
  solid c = true -> trimEnd (t ++ String c EmptyString) = t ++ String c EmptyString.
Proof.
  intros Hc. induction t as [|a t IH].
  - cbn [append trimEnd trimStart]. now rewrite (solid_ws1 c Hc).
  - rewrite append_cons. cbn [trimEnd].
    pose proof (trimStart_solid_end (String a t) c Hc) as Hne. rewrite append_cons in Hne.
    destruct (trimStart (String a (t ++ String c EmptyString))); [contradiction|].
    cbn [isEmpty]. now rewrite IH.
Qed.

(** The last character of a non-empty text. *)
Lemma last_char (s : string) :
  s <> EmptyString -> exists t c, s = t ++ String c EmptyString.
Proof.
  induction s as [|a s IH]; [contradiction|]. intros _.
  destruct s as [|b s].
  - now exists EmptyString, a.
  - destruct IH as (t & c & E); [discriminate|]. rewrite E. now exists (String a t), c.
Qed.

Lemma allChars_last (P : ascii -> bool) (t : string) (c : ascii) :
  allChars P (t ++ String c EmptyString) = true -> P c = true.
Proof.
  rewrite allChars_append. simpl. intros H.
  apply andb_true_iff in H as [_ H]. now apply andb_true_iff in H as [H _].
Qed.

Lemma uriChar_solid (c : ascii) : uriChar c = true -> solid c = true.
Proof. destruct c as [[] [] [] [] [] [] [] []]; vm_compute; intros H; congruence. Qed.

End TrimFacts.

Section OpeningFacts.
Import JS.

(** The attribute opening ends in a double quote, so it cannot reach into a
    text that holds none. *)
Lemma startsWith_append_noDQ (b x : string) :
  startsWith b URI_OPEN = false -> allChars notDQ x = true ->
  startsWith (b ++ x) URI_OPEN = false.
Proof.
  intros Hb Hx. destruct (startsWith (b ++ x) URI_OPEN) eqn:E; [|reflexivity].
  exfalso. apply startsWith_split in E as [r E]. unfold URI_OPEN in *.
  destruct b as [|c1 [|c2 [|c3 [|c4 [|c5 b]]]]]; cbn in E.
  - subst x. discriminate Hx.
  - injection E as -> ->. discriminate Hx.
  - injection E as -> -> ->. discriminate Hx.
  - injection E as -> -> -> ->. discriminate Hx.
  - injection E as -> -> -> -> ->. discriminate Hx.
  - injection E as -> -> -> -> -> _. discriminate Hb.
Qed.

Lemma includes_noDQ (x : string) :
  allChars notDQ x = true -> includes x URI_OPEN = false.
Proof.
  induction x as [|c x IH]; intros Hx; rewrite includes_unfold.
  - reflexivity.
  - pose proof (startsWith_append_noDQ EmptyString (String c x) eq_refl Hx) as Hs.
    rewrite append_nil_l in Hs. rewrite Hs.
    simpl in Hx. apply andb_true_iff in Hx as [_ Hx]. now apply IH.
Qed.

Lemma includes_append_noDQ (b x : string) :
  includes b URI_OPEN = false -> allChars notDQ x = true ->
  includes (b ++ x) URI_OPEN = false.
Proof.
  intros Hb Hx. induction b as [|c b IH].
  - now apply includes_noDQ.
  - rewrite append_cons, includes_unfold. cbv beta iota.
    rewrite <- append_cons, startsWith_append_noDQ;
      [| now apply includes_startsWith_false | exact Hx].
    apply IH. eapply includes_cons_false, Hb.
Qed.

End OpeningFacts.

Section Idempotence.
Import JS Proxy.

Variable new_URL : string -> option string -> result URL.

Lemma query_solid (abs : string) :
  allChars solid ("?url=" ++ encodeURIComponent abs) = true.
Proof.
  rewrite allChars_append. simpl.
  apply (allChars_impl uriChar); [apply uriChar_solid | apply encodeURIComponent_chars].
Qed.

(** A proxied reference ends in a solid character. *)
Lemma proxied_last (baseUrl abs : string) :
  exists t c, proxied baseUrl abs = t ++ String c EmptyString /\ solid c = true.
Proof.
  destruct (last_char ("?url=" ++ encodeURIComponent abs)) as (t & c & E); [discriminate|].
  exists (baseUrl ++ t), c. split.
  - unfold proxied. rewrite append_assoc. f_equal. exact E.
  - apply (allChars_last solid t). rewrite <- E. apply query_solid.
Qed.

(** Trimming leaves a proxied reference alone when the base does not start
    with white space. *)
Lemma proxied_trim (baseUrl abs : string) :
  baseUrl <> EmptyString -> trimStart baseUrl = baseUrl ->
  trim (proxied baseUrl abs) = proxied baseUrl abs.
Proof.
  intros Hne Ht. unfold trim.
  replace (trimStart (proxied baseUrl abs)) with (proxied baseUrl abs).
  - destruct (proxied_last baseUrl abs) as (t & c & -> & Hc). now apply trimEnd_solid_end.
  - symmetry. unfold proxied.
    change ("?url=" ++ encodeURIComponent abs)
      with (String "?" ("url=" ++ encodeURIComponent abs)).
    now apply trimStart_append.
Qed.

Lemma proxied_no_opening (baseUrl abs : string) :
  includes baseUrl URI_OPEN = false ->
  includes (proxied baseUrl abs) URI_OPEN = false.
Proof.
  intros HB. unfold proxied. apply includes_append_noDQ; [exact HB|].
  rewrite allChars_append. simpl.
  apply (allChars_impl uriChar); [apply uriChar_notDQ | apply encodeURIComponent_chars].
Qed.

(** Without attribute openings the already-proxied guard does its work: a
    second pass over a line leaves it as the first pass made it. *)
Lemma processLine_idempotent (baseUrl base line : string) :
  includes baseUrl URI_OPEN = false ->
  trimStart baseUrl = baseUrl ->
  includes line URI_OPEN = false ->
  processLine new_URL baseUrl base (processLine new_URL baseUrl base line)
  = processLine new_URL baseUrl base line.
Proof.
  intros HB Ht Hl.
  assert (Hline : forall x, processLine new_URL baseUrl base line = x ->
                            x = line \/ (baseUrl <> EmptyString /\ exists abs, x = proxied baseUrl abs)).
  { intros x <-. unfold processLine. rewrite Hl.
    destruct (isEmpty (trim line)); [now left|].
    destruct (startsWith (trim line) "#"); [now left|].
    destruct (startsWith (trim line) baseUrl) eqn:Eb; [now left|]. cbn [negb andb].
    destruct (segmentAbs new_URL base (trim line)) as [abs|e]; [|now left].
    right. split; [|now exists abs].
    intros ->. simpl in Eb. discriminate Eb. }
  destruct (Hline _ eq_refl) as [E | (Hne & abs & E)]; rewrite E.
  - exact E.
  - apply processLine_passthrough; [now apply proxied_no_opening|].
    rewrite proxied_trim by assumption.
    unfold proxied at 3. rewrite startsWith_append. apply orb_true_r.
Qed.

Lemma endsWith_solid_last (t : string) (c : ascii) :
  solid c = true -> endsWith (t ++ String c EmptyString) (String CR EmptyString) = false.
Proof.
  intros Hc. induction t as [|a t IH].
  - simpl. destruct (Ascii.eqb_spec c CR) as [->|]; [discriminate Hc | reflexivity].
  - rewrite append_cons. cbn [endsWith]. rewrite IH, orb_false_r.
    simpl. destruct (Ascii.eqb a CR); [|reflexivity].
    destruct t; reflexivity.
Qed.

Lemma processLine_no_trailing_CR (baseUrl base line : string) :
  includes line URI_OPEN = false ->
  endsWith line (String CR EmptyString) = false ->
  endsWith (processLine new_URL baseUrl base line) (String CR EmptyString) = false.
Proof.
  intros Hl Hcr. unfold processLine. rewrite Hl.
  destruct (_ && _); [|exact Hcr].
  destruct (segmentAbs new_URL base (trim line)) as [abs|e]; [|exact Hcr].
  destruct (proxied_last baseUrl abs) as (t & c & -> & Hc). now apply endsWith_solid_last.
Qed.

Lemma splitLines_single (l : string) : allChars notLF l = true -> splitLines l = [l].
Proof.
  induction l as [|c l IH]; [reflexivity|]. cbn [allChars splitLines]. intros H.
  apply andb_true_iff in H as [Hc Hl]. unfold notLF in Hc.
  destruct (Ascii.eqb c LF); [discriminate|]. rewrite (IH Hl).
  destruct (Ascii.eqb c CR); [|reflexivity].
  destruct l as [|c' l]; [reflexivity|].
  cbn [allChars] in Hl. apply andb_true_iff in Hl as [Hc' _]. unfold notLF in Hc'.
  destruct (Ascii.eqb c' LF); [discriminate | reflexivity].
Qed.

Lemma splitLines_append (l rest : string) :
  allChars notLF l = true ->
  endsWith l (String CR EmptyString) = false ->
  splitLines (l ++ String LF rest) = l :: splitLines rest.
Proof.
  induction l as [|c l IH]; intros Hl Hcr.
  - reflexivity.
  - cbn [allChars] in Hl. apply andb_true_iff in Hl as [Hc Hl]. unfold notLF in Hc.
    cbn [endsWith] in Hcr. apply orb_false_iff in Hcr as [Heq Hcr].
    rewrite append_cons. cbn [splitLines].
    destruct (Ascii.eqb c LF); [discriminate|]. rewrite (IH Hl Hcr).
    destruct (Ascii.eqb c CR) eqn:Ec; [|reflexivity].
    destruct l as [|c' l].
    + simpl in Heq. rewrite Ec in Heq. discriminate Heq.
    + rewrite append_cons.
      cbn [allChars] in Hl. apply andb_true_iff in Hl as [Hc' _]. unfold notLF in Hc'.
      destruct (Ascii.eqb c' LF); [discriminate | reflexivity].
Qed.

(** Splitting a text joined with line feeds gives the lines back when no
    line holds a line feed or ends in a carriage return. *)
Lemma splitLines_join (l : string) (ls : list string) :
  Forall (fun l => allChars notLF l = true
                   /\ endsWith l (String CR EmptyString) = false) (l :: ls) ->
  splitLines (join (String LF EmptyString) (l :: ls)) = l :: ls.
Proof.
  revert l. induction ls as [|l' ls IH]; intros l H; inversion H as [|? ? [Hl Hcr] Hrest]; subst.
  - simpl. now apply splitLines_single.
  - rewrite join_cons.
    transitivity (l :: splitLines (join (String LF EmptyString) (l' :: ls))).
    + now apply (splitLines_append l).
    + now rewrite IH.
Qed.

(** C1, as the code has it.  For a proxy base URL that holds no line feed
    and no attribute opening and does not start with white space, and a
    playlist none of whose lines holds an attribute opening or ends in a
    stray carriage return, rewriting twice equals rewriting once: the
    guard of the segment branch leaves every line of the first pass
    untouched on the second. *)
Theorem processM3U8_idempotent_without_attributes (content baseUrl targetUrl : string) :
  includes baseUrl (String LF EmptyString) = false ->
  includes baseUrl URI_OPEN = false ->
  trimStart baseUrl = baseUrl ->
  Forall (fun l => includes l URI_OPEN = false
                   /\ endsWith l (String CR EmptyString) = false) (splitLines content) ->
  processM3U8 new_URL (processM3U8 new_URL content baseUrl targetUrl) baseUrl targetUrl
  = processM3U8 new_URL content baseUrl targetUrl.
Proof.
  intros HLF HB Ht Hlines. apply includes_LF in HLF.
  rewrite (processM3U8_lines new_URL (processM3U8 new_URL content baseUrl targetUrl)).
  rewrite (processM3U8_lines new_URL content) at 2.
  set (base := substring targetUrl 0 (lastIndexOf targetUrl "/" + 1)).
  rewrite (processM3U8_lines new_URL content). fold base.
  pose proof (splitLines_noLF content) as Hno.
  destruct (splitLines_cons content) as (l & ls & El). rewrite El in *.
  cbn [map]. rewrite splitLines_join.
  - f_equal. change (map (processLine new_URL baseUrl base)
                       (map (processLine new_URL baseUrl base) (l :: ls))
                     = map (processLine new_URL baseUrl base) (l :: ls)).
    rewrite map_map. apply map_ext_in. intros x Hx.
    apply processLine_idempotent; try assumption.
    rewrite Forall_forall in Hlines. apply list_elem_of_In in Hx. now apply Hlines.
  - change (Forall (fun l0 => allChars notLF l0 = true
                              /\ endsWith l0 (String CR EmptyString) = false)
              (map (processLine new_URL baseUrl base) (l :: ls))).
    apply Forall_map. rewrite Forall_forall in *. intros x Hx. cbn beta. split.
    + apply processLine_noLF; [exact HLF | now apply Hno].
    + apply processLine_no_trailing_CR; now apply Hlines.
Qed.

End Idempotence.

(* ===================================================================== *)
(** * Idempotence and pass-through on a concrete playlist *)
(* ===================================================================== *)

Section IdempotenceExamples.
Import JS Proxy.


Lemma processM3U8_idempotent_example :
  processM3U8 Ref.new_URL (processM3U8 Ref.new_URL Ref.playlist Ref.B Ref.T) Ref.B Ref.T
  = processM3U8 Ref.new_URL Ref.playlist Ref.B Ref.T.
Proof.
  apply (processM3U8_idempotent_without_attributes Ref.new_URL Ref.playlist Ref.B Ref.T
           eq_refl eq_refl eq_refl).
  repeat constructor.
Defined.

(** Rewriting twice is not rewriting once for every playlist: not when a
    line ends in a stray carriage return, and not when a line holds a
    quoted attribute. *)
Lemma processM3U8_idempotent_counterexample :
  (let P := "#x" ++ String CR (String CR (String LF EmptyString)) in
   processM3U8 Ref.new_URL (processM3U8 Ref.new_URL P Ref.B Ref.T) Ref.B Ref.T
   <> processM3U8 Ref.new_URL P Ref.B Ref.T)
  /\ (let P := "#EXT-X-KEY:METHOD=AES-128,URI=" ++ Ref.q ++ "key.bin" ++ Ref.q in
      processM3U8 Ref.new_URL (processM3U8 Ref.new_URL P Ref.B "https://a.com/p/idx.m3u8")
                  Ref.B "https://a.com/p/idx.m3u8"
      <> processM3U8 Ref.new_URL P Ref.B "https://a.com/p/idx.m3u8").
Proof. split; vm_compute; discriminate. Qed.

(** A stray carriage return before a line ending is why the lines must not
    end in one: the first pass keeps it, the second pass reads it as part
    of the line ending. *)
Example stray_CR_not_idempotent (new_URL : string -> option string -> result URL) :
  let P := "#x" ++ String CR (String CR (String LF EmptyString)) in
  processM3U8 new_URL P Ref.B Ref.T = "#x" ++ String CR (String LF EmptyString)
  /\ processM3U8 new_URL (processM3U8 new_URL P Ref.B Ref.T) Ref.B Ref.T
     = "#x" ++ String LF EmptyString.
Proof. split; reflexivity. Qed.

Lemma passthrough_lines_example :
  processLine Ref.new_URL Ref.B "https://a.com/path/" "#EXTINF:4," = "#EXTINF:4,".
Proof.
  exact (passthrough_lines Ref.new_URL Ref.B "https://a.com/path/" "#EXTINF:4,"
           eq_refl eq_refl).
Defined.

End IdempotenceExamples.


(* ===================================================================== *)
(** * More of the rewriter: the base path, independent lines, broken
      attributes *)
(* ===================================================================== *)

Section BasePath.
Import JS Proxy.

Variable new_URL : string -> option string -> result URL.

Lemma includes_char (s : string) (c : ascii) :
  includes s (String c EmptyString) = false
  <-> allChars (fun a => negb (Ascii.eqb a c)) s = true.
Proof.
  induction s as [|a s IH]; simpl; [tauto|].
  rewrite andb_true_r.
  destruct (Ascii.eqb a c); simpl; [split; intros H; discriminate H | exact IH].
Qed.

Lemma lastIndexOf_from_absent (s : string) (c : ascii) (i acc : Z) :
  allChars (fun a => negb (Ascii.eqb a c)) s = true ->
  lastIndexOf_from s c i acc = acc.
Proof.
  revert i. induction s as [|a s IH]; simpl; intros i H; [reflexivity|].
  apply andb_true_iff in H as [Ha Hs].
  destruct (Ascii.eqb a c); [discriminate|]. now apply IH.
Qed.

Lemma lastIndexOf_from_last (d f : string) (c : ascii) (i acc : Z) :
  allChars (fun a => negb (Ascii.eqb a c)) f = true ->
  lastIndexOf_from (d ++ String c f) c i acc = (i + Z.of_nat (String.length d))%Z.
Proof.
  intros Hf. revert i acc. induction d as [|a d IH]; intros i acc.
  - simpl. rewrite Ascii.eqb_refl, lastIndexOf_from_absent by assumption. lia.
  - rewrite append_cons. cbn [lastIndexOf_from String.length]. rewrite IH. lia.
Qed.

Lemma substring_prefix (a b : string) :
  String.substring 0 (String.length a) (a ++ b) = a.
Proof.
  induction a as [|c a IH]; simpl.
  - destruct b; reflexivity.
  - now rewrite IH.
Qed.

(** The base of the rewriter is the target up to and including its last
    slash, and empty when the target has no slash. *)
Lemma base_of_target (d f : string) :
  includes f "/" = false ->
  substring (d ++ "/" ++ f) 0 (lastIndexOf (d ++ "/" ++ f) "/" + 1) = d ++ "/"
  /\ substring f 0 (lastIndexOf f "/" + 1) = EmptyString.
Proof.
  intros Hf. apply includes_char in Hf. split.
  - unfold lastIndexOf. change ("/" ++ f) with (String "/" f).
    rewrite lastIndexOf_from_last by assumption.
    unfold substring.
    replace (String.length (d ++ String "/" f))
      with (S (String.length d) + String.length f)%nat
      by (rewrite length_append; simpl; lia).
    replace (Z.to_nat _) with 0%nat by lia.
    replace (Z.to_nat _) with (String.length (d ++ "/")) by (rewrite length_append; simpl; lia).
    change (d ++ String "/" f) with (d ++ "/" ++ f). rewrite <- append_assoc.
    apply substring_prefix.
  - unfold lastIndexOf. rewrite lastIndexOf_from_absent by assumption.
    unfold substring. simpl Z.add.
    replace (Z.to_nat _) with 0%nat by lia.
    replace (Z.to_nat _) with 0%nat by lia.
    destruct f; reflexivity.
Qed.

(** X6. The rewriter reads the target only up to its last slash, wherever
    that slash stands: two targets that agree up to there rewrite every
    playlist alike, and a target without a slash is the same as an empty
    one. *)
Theorem processM3U8_target_tail (content baseUrl d f : string) :
  includes f "/" = false ->
  processM3U8 new_URL content baseUrl (d ++ "/" ++ f)
  = processM3U8 new_URL content baseUrl (d ++ "/")
  /\ processM3U8 new_URL content baseUrl (d ++ "/" ++ f)
     = join (String LF EmptyString)
         (map (processLine new_URL baseUrl (d ++ "/")) (splitLines content))
  /\ processM3U8 new_URL content baseUrl f
     = join (String LF EmptyString)
         (map (processLine new_URL baseUrl EmptyString) (splitLines content)).
Proof.
  intros Hf.
  destruct (base_of_target d f Hf) as [E1 E2].
  destruct (base_of_target d EmptyString eq_refl) as [E3 _].
  rewrite append_nil_r in E3.
  rewrite !processM3U8_lines, E1, E2.
  replace (d ++ "/" ++ EmptyString) with (d ++ "/") in E3 by reflexivity.
  now rewrite E3.
Qed.

End BasePath.


Section IndependentLines.
Import JS Proxy.

Variable new_URL : string -> option string -> result URL.

Lemma splitLines_cons_char (c : ascii) (s : string) :
  Ascii.eqb c LF = false ->
  (Ascii.eqb c CR = false \/ startsWith s (String LF EmptyString) = false) ->
  splitLines (String c s) =
  match splitLines s with
  | l :: ls => String c l :: ls
  | [] => [String c EmptyString]
  end.
Proof.
  intros Hc Hs. cbn [splitLines]. rewrite Hc.
  destruct (Ascii.eqb c CR); [|reflexivity].
  destruct Hs as [Hs|Hs]; [discriminate|].
  destruct s as [|c' s]; [reflexivity|].
  simpl in Hs. rewrite andb_true_r in Hs. now rewrite Hs.
Qed.

(** A carriage return and line feed between two texts separates the lines
    of the first from the lines of the second. *)
Lemma splitLines_CRLF (a b : string) :
  splitLines (a ++ String CR (String LF b)) = (splitLines a ++ splitLines b)%list.
Proof.
  induction a as [a IH] using string_length_ind.
  destruct a as [|c a]; [reflexivity|].
  rewrite append_cons.
  destruct (Ascii.eqb c LF) eqn:Ec.
  { cbn [splitLines]. rewrite Ec. rewrite IH by (simpl; lia). reflexivity. }
  destruct (Ascii.eqb c CR) eqn:Er.
  - destruct a as [|c' a].
    + cbn [append splitLines]. rewrite Ec, Er. cbn [splitLines].
      change (Ascii.eqb CR LF) with false. cbn iota.
      change (Ascii.eqb LF LF) with true. cbn iota. reflexivity.
    + rewrite append_cons. destruct (Ascii.eqb c' LF) eqn:Ec'.
      * cbn [splitLines]. rewrite Ec, Er, Ec'. rewrite IH by (simpl; lia). reflexivity.
      * rewrite splitLines_cons_char;
          [| exact Ec | right; simpl; now rewrite Ec'].
        rewrite (splitLines_cons_char c (String c' a));
          [| exact Ec | right; simpl; now rewrite Ec'].
        rewrite <- append_cons, IH by (simpl; lia).
        destruct (splitLines_cons (String c' a)) as (l & ls & ->). reflexivity.
  - rewrite splitLines_cons_char; [| exact Ec | now left].
    rewrite (splitLines_cons_char c a); [| exact Ec | now left].
    rewrite IH by (simpl; lia).
    destruct (splitLines_cons a) as (l & ls & ->). reflexivity.
Qed.

(** A bare line feed does the same unless the first text ends in a
    carriage return, which the line feed would take along. *)
Lemma splitLines_LF (a b : string) :
  endsWith a (String CR EmptyString) = false ->
  splitLines (a ++ String LF b) = (splitLines a ++ splitLines b)%list.
Proof.
  induction a as [a IH] using string_length_ind. intros Ha.
  destruct a as [|c a]; [reflexivity|].
  rewrite append_cons. cbn [endsWith] in Ha. apply orb_false_iff in Ha as [Heq Ha].
  destruct (Ascii.eqb c LF) eqn:Ec.
  { cbn [splitLines]. rewrite Ec. rewrite IH by (simpl; lia || assumption). reflexivity. }
  destruct (Ascii.eqb c CR) eqn:Er.
  - destruct a as [|c' a].
    + simpl in Heq. rewrite Er in Heq. discriminate Heq.
    + rewrite append_cons. destruct (Ascii.eqb c' LF) eqn:Ec'.
      * cbn [splitLines]. rewrite Ec, Er, Ec'.
        cbn [endsWith] in Ha. apply orb_false_iff in Ha as [_ Ha].
        rewrite IH by (simpl; lia || assumption). reflexivity.
      * rewrite splitLines_cons_char;
          [| exact Ec | right; simpl; now rewrite Ec'].
        rewrite (splitLines_cons_char c (String c' a));
          [| exact Ec | right; simpl; now rewrite Ec'].
        rewrite <- append_cons, IH by (simpl; lia || assumption).
        destruct (splitLines_cons (String c' a)) as (l & ls & ->). reflexivity.
  - rewrite splitLines_cons_char; [| exact Ec | now left].
    rewrite (splitLines_cons_char c a); [| exact Ec | now left].
    rewrite IH by (simpl; lia || assumption).
    destruct (splitLines_cons a) as (l & ls & ->). reflexivity.
Qed.

Lemma join_app (sep l1 l2 : string) (ls1 ls2 : list string) :
  join sep ((l1 :: ls1) ++ l2 :: ls2)%list
  = join sep (l1 :: ls1) ++ sep ++ join sep (l2 :: ls2).
Proof.
  revert l1. induction ls1 as [|l ls1 IH]; intros l1.
  - reflexivity.
  - change ((l1 :: l :: ls1) ++ l2 :: ls2)%list with (l1 :: ((l :: ls1) ++ l2 :: ls2))%list.
    destruct ls1 as [|l' ls1].
    + cbn [app]. rewrite !join_cons. now rewrite !append_assoc.
    + change ((l :: l' :: ls1) ++ l2 :: ls2)%list
        with (l :: ((l' :: ls1) ++ l2 :: ls2))%list in *.
      rewrite join_cons. rewrite (join_cons sep l1 l (l' :: ls1)).
      change (l :: (l' :: ls1) ++ l2 :: ls2)%list
        with ((l :: l' :: ls1) ++ l2 :: ls2)%list.
      rewrite IH. now rewrite !append_assoc.
Qed.

(** X7. Lines are rewritten one by one and nothing is carried from a line to
    the next: the rewrite of two texts joined by a line ending is the two
    rewrites joined by a line feed.  For a bare line feed the first text
    must not end in a carriage return. *)
Theorem processM3U8_append (a b baseUrl targetUrl : string) :
  processM3U8 new_URL (a ++ String CR (String LF b)) baseUrl targetUrl
  = processM3U8 new_URL a baseUrl targetUrl
    ++ String LF EmptyString ++ processM3U8 new_URL b baseUrl targetUrl
  /\ (endsWith a (String CR EmptyString) = false ->
      processM3U8 new_URL (a ++ String LF b) baseUrl targetUrl
      = processM3U8 new_URL a baseUrl targetUrl
        ++ String LF EmptyString ++ processM3U8 new_URL b baseUrl targetUrl).
Proof.
  assert (H : forall s,
             splitLines s = (splitLines a ++ splitLines b)%list ->
             processM3U8 new_URL s baseUrl targetUrl
             = processM3U8 new_URL a baseUrl targetUrl
               ++ String LF EmptyString ++ processM3U8 new_URL b baseUrl targetUrl).
  { intros s Hs. rewrite !processM3U8_lines, Hs, map_app.
    destruct (splitLines_cons a) as (l1 & ls1 & ->).
    destruct (splitLines_cons b) as (l2 & ls2 & ->).
    cbn [map]. apply join_app. }
  split.
  - apply H, splitLines_CRLF.
  - intros Ha. now apply H, splitLines_LF.
Qed.

End IndependentLines.


Section BrokenAttributes.
Import JS Proxy.

Variable new_URL : string -> option string -> result URL.

(** Text without an opening is copied up to the first opening. *)
Lemma replaceURI_prefix (fn : string -> string -> string) (p x : string) :
  includes p URI_OPEN = false ->
  replaceURI fn (p ++ URI_OPEN ++ x) = p ++ replaceURI fn (URI_OPEN ++ x).
Proof.
  intros Hp. induction p as [|c p IH].
  - reflexivity.
  - rewrite replaceURI_unfold, matchURI_None.
    + rewrite !append_cons. f_equal. apply IH. eapply includes_cons_false, Hp.
    + apply startsWith_straddle. now apply includes_startsWith_false.
Qed.

(** An opening whose value never closes is no attribute. *)
Lemma replaceURI_unterminated (fn : string -> string -> string) (v : string) :
  allChars notDQ v = true -> replaceURI fn (URI_OPEN ++ v) = URI_OPEN ++ v.
Proof.
  intros Hv. rewrite replaceURI_unfold.
  assert (Hm : matchURI (URI_OPEN ++ v) = None).
  { unfold matchURI. rewrite dropPrefix_append, spanNotQuote_all by assumption.
    destruct v; reflexivity. }
  rewrite Hm. unfold URI_OPEN at 1 2. cbn [append]. f_equal.
  apply replaceURI_plain.
  change (String "R" (String "I" (String "=" (String DQ v))))
    with (String "R" (String "I" (String "=" (String DQ EmptyString))) ++ v).
  now apply includes_append_noDQ.
Qed.

(** An opening with an empty value is no attribute either; the scan goes on
    after it. *)
Lemma replaceURI_empty_value (fn : string -> string -> string) (rest : string) :
  replaceURI fn (URI_OPEN ++ String DQ rest) = URI_OPEN ++ String DQ (replaceURI fn rest).
Proof.
  unfold URI_OPEN. cbn [append].
  repeat (rewrite replaceURI_unfold; change (matchURI _) with (@None (string * string));
          cbv beta iota; f_equal).
Qed.

(** X8. A line that holds the attribute opening but no attribute the
    expression accepts, because the value never closes or is empty, comes
    out as it went in, also when it is a segment reference: the attribute
    branch has taken the line and the segment branch never sees it. *)
Theorem broken_attribute_lines (baseUrl base text value tail : string) :
  includes text URI_OPEN = false ->
  (allChars notDQ value = true ->
   processLine new_URL baseUrl base (text ++ URI_OPEN ++ value)
   = text ++ URI_OPEN ++ value)
  /\ (includes tail URI_OPEN = false ->
      processLine new_URL baseUrl base (text ++ URI_OPEN ++ String DQ tail)
      = text ++ URI_OPEN ++ String DQ tail).
Proof.
  intros Ht. split.
  - intros Hv. unfold processLine.
    replace (includes (text ++ URI_OPEN ++ value) URI_OPEN) with true
      by (symmetry; apply includes_split; now exists text, value).
    now rewrite replaceURI_prefix, replaceURI_unterminated.
  - intros Htail. unfold processLine.
    replace (includes (text ++ URI_OPEN ++ String DQ tail) URI_OPEN) with true
      by (symmetry; apply includes_split; now exists text, (String DQ tail)).
    now rewrite replaceURI_prefix, replaceURI_empty_value, replaceURI_plain.
Qed.

End BrokenAttributes.

(* ===================================================================== *)
(** * More of the handler: what it reads, what it answers *)
(* ===================================================================== *)

Section HandlerFlow.
Import JS Proxy Relay Flow.

Variable new_URL : string -> option string -> result URL.

Ltac step :=
  unfold Proxy.run, handler, try_catch, bind, lift, do_fetch, forwardHeader, isM3U8 in *;
  cbn beta iota in *.

Ltac split_all := repeat match goal with |- _ /\ _ => split end.

Ltac copied response :=
  destruct (truthy (resp_headers response !! "content-type"));
  destruct (truthy (resp_headers response !! "content-length"));
  destruct (truthy (resp_headers response !! "content-range"));
  destruct (truthy (resp_headers response !! "accept-ranges")).

(** X9. Of an upstream answer the handler reads the status, the body and
    four headers, and nothing else: two upstreams that differ only in other
    headers, cookies included, lead to the same response and the same
    upstream traffic. *)
Theorem upstream_headers_read (fetch1 fetch2 : string -> RequestInit -> result Response)
        (req : Request) :
  (forall url init, same_answer (fetch1 url init) (fetch2 url init)) ->
  Proxy.run new_URL fetch1 req = Proxy.run new_URL fetch2 req.
Proof.
  intros H. step.
  destruct (strictEq (req_method req) "OPTIONS"); [reflexivity|].
  destruct (falsy (req_query req !! "url")); [reflexivity|].
  destruct (new_URL _ None) as [u|e]; [|reflexivity].
  specialize (H (toString (req_query req !! "url")) (fetchInit req (requestHeaders req u))).
  destruct (fetch1 _ _) as [r1|e1], (fetch2 _ _) as [r2|e2]; cbn in H; try contradiction.
  - destruct H as (Hs & Ht & Hb & Hct & Hcl & Hcr & Har).
    rewrite Hs, Ht, Hb, Hct, Hcl, Hcr, Har. reflexivity.
  - now rewrite H.
Qed.

(** X10. Of the inbound request the handler reads the method, the [url]
    parameter and the [host] and [range] headers: whatever else the caller
    sends, other parameters, cookies and authorization included, changes
    neither the response nor the upstream request. *)
Theorem inbound_headers_read (fetch : string -> RequestInit -> result Response)
        (r1 r2 : Request) :
  same_request r1 r2 ->
  Proxy.run new_URL fetch r1 = Proxy.run new_URL fetch r2.
Proof.
  intros (Hm & Hq & Hh & Hr). step. unfold fetchInit, requestHeaders.
  rewrite Hm, Hq, Hh, Hr. reflexivity.
Qed.

Lemma messageOf_nonempty (e : Error) : messageOf e <> EmptyString.
Proof.
  unfold messageOf. destruct (message e) eqn:E; simpl; [discriminate | congruence].
Qed.

(** X12. The five answers of the handler.  An invocation ends in one of:
    204 with an empty body, for OPTIONS; 400 with a JSON body, for a missing
    or empty [url]; 500 with the JSON failure body, whose message is never
    empty and whose target echoes the query parameter; 200 with the
    rewritten text of the answer the upstream gave to the one request; or
    the status of that answer with the very bytes of its body.  The first
    two are given without any upstream request. *)
Theorem handler_answers (fetch : string -> RequestInit -> result Response) (req : Request) :
  let w := snd (Proxy.run new_URL fetch req) in
  let target := toString (req_query req !! "url") in
  (strictEq (req_method req) "OPTIONS" = true
   /\ statusCode (res w) = 204%Z /\ res_body (res w) = Some BodyEmpty /\ upstream w = [])
  \/ (falsy (req_query req !! "url") = true
      /\ statusCode (res w) = 400%Z
      /\ (exists fields, res_body (res w) = Some (BodyJson fields))
      /\ upstream w = [])
  \/ (statusCode (res w) = 500%Z
      /\ exists m, m <> EmptyString
                   /\ res_body (res w) = Some (failure m (req_query req !! "url")))
  \/ (exists u response text,
        new_URL target None = Ok u
        /\ fetch target (fetchInit req (requestHeaders req u)) = Ok response
        /\ resp_text response = Ok text
        /\ statusCode (res w) = 200%Z
        /\ res_body (res w)
           = Some (BodyText
                     (processM3U8 new_URL text
                        ("https://" ++ template (req_headers req !! "host") ++ "/api/proxy")
                        target)))
  \/ (exists u response bytes,
        new_URL target None = Ok u
        /\ fetch target (fetchInit req (requestHeaders req u)) = Ok response
        /\ resp_arrayBuffer response = Ok bytes
        /\ statusCode (res w) = resp_status response
        /\ res_body (res w) = Some (BodyBytes bytes)).
Proof.
  pose proof messageOf_nonempty as Hne.
  assert (H500 : forall e (w : World),
             statusCode (res w) = 500%Z ->
             res_body (res w)
             = Some (failure (messageOf e) (req_query req !! "url")) ->
             statusCode (res w) = 500%Z
             /\ exists m, m <> EmptyString
                          /\ res_body (res w) = Some (failure m (req_query req !! "url")))
    by (intros e w H1 H2; split; [exact H1 | exists (messageOf e); split; [apply Hne | exact H2]]).
  cbv zeta. step.
  destruct (strictEq (req_method req) "OPTIONS"); [left; split_all; reflexivity|].
  destruct (falsy (req_query req !! "url"));
    [right; left; split_all; [reflexivity | reflexivity | eexists; reflexivity | reflexivity]|].
  destruct (new_URL _ None) as [u|e] eqn:Eu;
    [|right; right; left; apply (H500 e); reflexivity].
  destruct (fetch _ _) as [response|e] eqn:Ef;
    [|right; right; left; apply (H500 e); reflexivity].
  destruct (req_query req !! "url") as [[target|targets]|];
    [|right; right; left;
      apply (H500 (mkError "targetUrl.endsWith is not a function")); reflexivity..].
  cbn beta iota.
  destruct (endsWith target ".m3u8" || _).
  - destruct (resp_text response) as [text|e] eqn:Et.
    + right; right; right; left. exists u, response, text.
      split_all; first [reflexivity | assumption].
    + right; right; left. apply (H500 e); reflexivity.
  - destruct (resp_arrayBuffer response) as [bytes|e] eqn:Eb.
    + right; right; right; right. exists u, response, bytes.
      copied response;
        (split_all; first [reflexivity | assumption]).
    + right; right; left. copied response; apply (H500 e); reflexivity.
Qed.

(** X13. The caching header goes with the playlist answer and with no other:
    a response that carries a text body has status 200 and
    [Cache-Control: public, max-age=300] and none of the range headers of the
    upstream; every other response has no [Cache-Control]. *)
Theorem playlist_answer_headers (fetch : string -> RequestInit -> result Response)
        (req : Request) :
  let r := res (snd (Proxy.run new_URL fetch req)) in
  match res_body r with
  | Some (BodyText _) =>
      statusCode r = 200%Z
      /\ getHeader r "Cache-Control" = Some "public, max-age=300"
      /\ getHeader r "Content-Range" = None
      /\ getHeader r "Accept-Ranges" = None
  | _ => getHeader r "Cache-Control" = None
  end.
Proof.
  cbv zeta. step.
  destruct (strictEq (req_method req) "OPTIONS"); [vm_compute; reflexivity|].
  destruct (falsy (req_query req !! "url")); [vm_compute; reflexivity|].
  destruct (new_URL _ None) as [u|e]; [|vm_compute; reflexivity].
  destruct (fetch _ _) as [response|e]; [|vm_compute; reflexivity].
  destruct (req_query req !! "url") as [[target|targets]|]; [|vm_compute; reflexivity..].
  cbn beta iota.
  destruct (endsWith target ".m3u8" || _).
  - destruct (resp_text response); vm_compute; split_all; reflexivity.
  - copied response; destruct (resp_arrayBuffer response); vm_compute; reflexivity.
Qed.

End HandlerFlow.

Section RequestHeaders.
Import JS Proxy Relay Flow.

(** X11. The header object of the upstream request holds no name besides
    the three fixed ones, [origin], [referer] and [Range], and it holds
    [Range] exactly when the inbound request has a non-empty one. *)
Theorem requestHeaders_names (req : Request) (url : URL) :
  (forall k v, requestHeaders req url !! k = Some v -> In k request_names)
  /\ requestHeaders req url !! "Range"
     = (if truthy (req_headers req !! "range") then req_headers req !! "range" else None).
Proof.
  assert (Hother : forall k,
             k <> "Range" -> k <> "origin" -> k <> "referer" ->
             k <> "User-Agent" -> k <> "Accept" -> k <> "Accept-Language" ->
             requestHeaders req url !! k = None).
  { intros k H1 H2 H3 H4 H5 H6. unfold requestHeaders, spread.
    destruct (truthy (req_headers req !! "range"));
      rewrite ?(lookup_insert_ne _ "Range") by congruence;
      (rewrite lookup_union_r by now apply getDomainHeaders_keys);
      rewrite !lookup_insert_ne by congruence; apply lookup_empty. }
  split.
  - intros k v H. unfold request_names.
    destruct (decide (k = "User-Agent")) as [->|H4]; [simpl; tauto|].
    destruct (decide (k = "Accept")) as [->|H5]; [simpl; tauto|].
    destruct (decide (k = "Accept-Language")) as [->|H6]; [simpl; tauto|].
    destruct (decide (k = "origin")) as [->|H2]; [simpl; tauto|].
    destruct (decide (k = "referer")) as [->|H3]; [simpl; tauto|].
    destruct (decide (k = "Range")) as [->|H1]; [simpl; tauto|].
    rewrite Hother in H by assumption. discriminate H.
  - unfold requestHeaders, spread.
    destruct (req_headers req !! "range") as [[|c r]|]; cbn [truthy isEmpty negb template].
    + rewrite lookup_union_r by (apply getDomainHeaders_keys; discriminate).
      rewrite !lookup_insert_ne by discriminate. apply lookup_empty.
    + apply lookup_insert_eq.
    + rewrite lookup_union_r by (apply getDomainHeaders_keys; discriminate).
      rewrite !lookup_insert_ne by discriminate. apply lookup_empty.
Qed.

End RequestHeaders.

Section HandlerEdges.
Import JS Proxy Relay Flow.

Variable new_URL : string -> option string -> result URL.
Variable fetch : string -> RequestInit -> result Response.

Ltac step :=
  unfold Proxy.run, handler, try_catch, bind, lift, do_fetch, forwardHeader, isM3U8 in *;
  cbn beta iota in *.

Ltac split_all := repeat match goal with |- _ /\ _ => split end.

Ltac header response name :=
  destruct (resp_headers response !! name) as [[|? ?]|].

(** X14. An answer that is forwarded carries the content type of the
    upstream when the upstream sent a non-empty one, and the content range
    and the accept-ranges value of the upstream, each as the upstream sent
    it and each only when the upstream sent a non-empty one. *)
Theorem forwarded_headers (req : Request) (target : string) (u : URL)
        (response : Response) (bytes : list Byte.byte) :
  strictEq (req_method req) "OPTIONS" = false ->
  req_query req !! "url" = Some (QString target) ->
  target <> EmptyString ->
  new_URL target None = Ok u ->
  fetch target (fetchInit req (requestHeaders req u)) = Ok response ->
  endsWith target ".m3u8" || declares_mpegurl response = false ->
  resp_arrayBuffer response = Ok bytes ->
  (truthy (resp_headers response !! "content-type") = true ->
   getHeader (res (snd (Proxy.run new_URL fetch req))) "Content-Type"
   = resp_headers response !! "content-type")
  /\ getHeader (res (snd (Proxy.run new_URL fetch req))) "Content-Range"
     = (if truthy (resp_headers response !! "content-range")
        then resp_headers response !! "content-range" else None)
  /\ getHeader (res (snd (Proxy.run new_URL fetch req))) "Accept-Ranges"
     = (if truthy (resp_headers response !! "accept-ranges")
        then resp_headers response !! "accept-ranges" else None).
Proof.
  intros Hm Hq Hne Hu Hf Hc Hb. step. rewrite Hm, Hq. cbn [falsy toString].
  destruct target as [|c target]; [contradiction|]. cbn [isEmpty].
  rewrite Hu, Hf. cbn beta iota. unfold declares_mpegurl in Hc. rewrite Hc, Hb.
  clear Hc.
  header response "content-type"; header response "content-length";
    header response "content-range"; header response "accept-ranges";
    vm_compute; split_all; try reflexivity; intros H; first [discriminate H | reflexivity].
Qed.

(** X15. A failure while the body of a forwarded answer is read is answered
    500 with the failure body, after the one upstream request; the range
    headers copied from the upstream before the read stay on that answer. *)
Theorem body_read_failure (req : Request) (target : string) (u : URL)
        (response : Response) (e : Error) :
  strictEq (req_method req) "OPTIONS" = false ->
  req_query req !! "url" = Some (QString target) ->
  target <> EmptyString ->
  new_URL target None = Ok u ->
  fetch target (fetchInit req (requestHeaders req u)) = Ok response ->
  endsWith target ".m3u8" || declares_mpegurl response = false ->
  resp_arrayBuffer response = Throw e ->
  statusCode (res (snd (Proxy.run new_URL fetch req))) = 500%Z
  /\ res_body (res (snd (Proxy.run new_URL fetch req)))
     = Some (failure (messageOf e) (Some (QString target)))
  /\ getHeader (res (snd (Proxy.run new_URL fetch req))) "Content-Range"
     = (if truthy (resp_headers response !! "content-range")
        then resp_headers response !! "content-range" else None)
  /\ getHeader (res (snd (Proxy.run new_URL fetch req))) "Accept-Ranges"
     = (if truthy (resp_headers response !! "accept-ranges")
        then resp_headers response !! "accept-ranges" else None).
Proof.
  intros Hm Hq Hne Hu Hf Hc Hb. step. rewrite Hm, Hq. cbn [falsy toString].
  destruct target as [|c target]; [contradiction|]. cbn [isEmpty].
  rewrite Hu, Hf. cbn beta iota. unfold declares_mpegurl in Hc. rewrite Hc, Hb.
  clear Hc.
  header response "content-type"; header response "content-length";
    header response "content-range"; header response "accept-ranges";
    (split_all; [reflexivity | reflexivity | vm_compute; reflexivity..]).
Qed.

(** X16. A [url] parameter given more than once reaches the handler as an
    array.  The array is not empty in the sense of the 400 test; [new URL]
    and [fetch] take it as its elements joined by commas; and when that
    string is a URL the one upstream request is made and its answer thrown
    away, for the classification fails on an array: the answer is 500 and
    echoes the array. *)
Theorem repeated_url_parameter (req : Request) (targets : list string) (u : URL) :
  strictEq (req_method req) "OPTIONS" = false ->
  req_query req !! "url" = Some (QArray targets) ->
  new_URL (join "," targets) None = Ok u ->
  upstream (snd (Proxy.run new_URL fetch req))
  = [(join "," targets, fetchInit req (requestHeaders req u))]
  /\ statusCode (res (snd (Proxy.run new_URL fetch req))) = 500%Z
  /\ exists m,
       res_body (res (snd (Proxy.run new_URL fetch req)))
       = Some (failure m (Some (QArray targets))).
Proof.
  intros Hm Hq Hu. step. rewrite Hm, Hq. cbn [falsy toString]. rewrite Hu.
  cbn beta iota.
  destruct (fetch _ _) as [response|e];
    (split_all; [reflexivity | reflexivity | eexists; reflexivity]).
Qed.

End HandlerEdges.

Section FlowExamples.
Import JS Proxy Relay Flow.

Lemma upstream_headers_read_example :
  Proxy.run Ref.new_URL (Ref.serve Ref.segment206)
    (Ref.request "GET" "https://a.com/path/seg1.ts" Ref.ranged)
  = Proxy.run Ref.new_URL (Ref.serve Cases.cookie206)
      (Ref.request "GET" "https://a.com/path/seg1.ts" Ref.ranged).
Proof.
  apply (upstream_headers_read Ref.new_URL (Ref.serve Ref.segment206)
           (Ref.serve Cases.cookie206)).
  intros url init. vm_compute. repeat split.
Defined.

Lemma inbound_headers_read_example :
  Proxy.run Ref.new_URL (Ref.serve Ref.segment206)
    (Ref.request "GET" "https://a.com/path/seg1.ts" Ref.ranged)
  = Proxy.run Ref.new_URL (Ref.serve Ref.segment206)
      (mkRequest (Some "GET")
         (<["token" := QString "abc"]> (<["url" := QString "https://a.com/path/seg1.ts"]> ∅))
         Cases.credentials).
Proof.
  apply (inbound_headers_read Ref.new_URL (Ref.serve Ref.segment206)).
  vm_compute. repeat split.
Defined.

Lemma requestHeaders_names_example :
  In "origin" request_names
  /\ requestHeaders
       (Ref.request "GET" "https://hls.krussdomi.com/v/seg7.ts" Cases.credentials)
       (mkURL "https://hls.krussdomi.com/v/seg7.ts" "hls.krussdomi.com" "/v/seg7.ts")
     !! "Range"
     = Some "bytes=0-1023".
Proof.
  split.
  - apply (proj1 (requestHeaders_names
                    (Ref.request "GET" "https://hls.krussdomi.com/v/seg7.ts" Cases.credentials)
                    (mkURL "https://hls.krussdomi.com/v/seg7.ts" "hls.krussdomi.com"
                       "/v/seg7.ts"))
             "origin" "https://hls.krussdomi.com").
    vm_compute. reflexivity.
  - exact (proj2 (requestHeaders_names
                    (Ref.request "GET" "https://hls.krussdomi.com/v/seg7.ts" Cases.credentials)
                    (mkURL "https://hls.krussdomi.com/v/seg7.ts" "hls.krussdomi.com"
                       "/v/seg7.ts"))).
Defined.

Lemma forwarded_headers_example :
  (true = true ->
   getHeader (res (snd (Proxy.run Ref.new_URL (Ref.serve Ref.segment206)
                          (Ref.request "GET" "https://a.com/path/seg1.ts" Ref.ranged))))
     "Content-Type" = Some "video/mp2t")
  /\ getHeader (res (snd (Proxy.run Ref.new_URL (Ref.serve Ref.segment206)
                            (Ref.request "GET" "https://a.com/path/seg1.ts" Ref.ranged))))
       "Content-Range" = Some "bytes 0-1/188"
  /\ getHeader (res (snd (Proxy.run Ref.new_URL (Ref.serve Ref.segment206)
                            (Ref.request "GET" "https://a.com/path/seg1.ts" Ref.ranged))))
       "Accept-Ranges" = None.
Proof.
  exact (forwarded_headers Ref.new_URL (Ref.serve Ref.segment206)
           (Ref.request "GET" "https://a.com/path/seg1.ts" Ref.ranged)
           "https://a.com/path/seg1.ts"
           (mkURL "https://a.com/path/seg1.ts" "a.com" "/path/seg1.ts")
           Ref.segment206 [Byte.x47; Byte.x40]
           eq_refl eq_refl ltac:(discriminate) eq_refl eq_refl eq_refl eq_refl).
Defined.

Lemma body_read_failure_example :
  statusCode (res (snd (Proxy.run Ref.new_URL (Ref.serve Cases.unreadable206)
                          (Ref.request "GET" "https://a.com/path/seg1.ts" Ref.ranged))))
  = 500%Z
  /\ res_body (res (snd (Proxy.run Ref.new_URL (Ref.serve Cases.unreadable206)
                           (Ref.request "GET" "https://a.com/path/seg1.ts" Ref.ranged))))
     = Some (failure "terminated" (Some (QString "https://a.com/path/seg1.ts")))
  /\ getHeader (res (snd (Proxy.run Ref.new_URL (Ref.serve Cases.unreadable206)
                            (Ref.request "GET" "https://a.com/path/seg1.ts" Ref.ranged))))
       "Content-Range" = Some "bytes 0-1/188"
  /\ getHeader (res (snd (Proxy.run Ref.new_URL (Ref.serve Cases.unreadable206)
                            (Ref.request "GET" "https://a.com/path/seg1.ts" Ref.ranged))))
       "Accept-Ranges" = Some "bytes".
Proof.
  exact (body_read_failure Ref.new_URL (Ref.serve Cases.unreadable206)
           (Ref.request "GET" "https://a.com/path/seg1.ts" Ref.ranged)
           "https://a.com/path/seg1.ts"
           (mkURL "https://a.com/path/seg1.ts" "a.com" "/path/seg1.ts")
           Cases.unreadable206 (mkError "terminated")
           eq_refl eq_refl ltac:(discriminate) eq_refl eq_refl eq_refl eq_refl).
Defined.

Lemma repeated_url_parameter_example :
  upstream (snd (Proxy.run Cases.new_URL (Ref.serve Ref.segment206)
                   (mkRequest (Some "GET") (<["url" := QArray Cases.repeated]> ∅) Ref.host)))
  = [("https://a.com/1.ts,https://a.com/2.ts",
      fetchInit (mkRequest (Some "GET") (<["url" := QArray Cases.repeated]> ∅) Ref.host)
        (requestHeaders
           (mkRequest (Some "GET") (<["url" := QArray Cases.repeated]> ∅) Ref.host)
           (mkURL "https://a.com/1.ts,https://a.com/2.ts" "a.com"
              "/1.ts,https://a.com/2.ts")))]
  /\ statusCode (res (snd (Proxy.run Cases.new_URL (Ref.serve Ref.segment206)
                             (mkRequest (Some "GET") (<["url" := QArray Cases.repeated]> ∅)
                                Ref.host))))
     = 500%Z
  /\ exists m,
       res_body (res (snd (Proxy.run Cases.new_URL (Ref.serve Ref.segment206)
                             (mkRequest (Some "GET") (<["url" := QArray Cases.repeated]> ∅)
                                Ref.host))))
       = Some (failure m (Some (QArray Cases.repeated))).
Proof.
  exact (repeated_url_parameter Cases.new_URL (Ref.serve Ref.segment206)
           (mkRequest (Some "GET") (<["url" := QArray Cases.repeated]> ∅) Ref.host)
           Cases.repeated
           (mkURL "https://a.com/1.ts,https://a.com/2.ts" "a.com" "/1.ts,https://a.com/2.ts")
           eq_refl eq_refl eq_refl).
Defined.

End FlowExamples.

(* ===================================================================== *)
(** * The plain relay *)
(* ===================================================================== *)

Section PlainRelay.
Import JS Relay.

Variable fetch : string -> RequestInit -> result Response.

Ltac split_all := repeat match goal with |- _ /\ _ => split end.

Lemma orElse_nonempty (v : option string) (d : string) :
  d <> EmptyString -> orElse v d <> EmptyString.
Proof.
  intros Hd. destruct v as [[|c s]|]; simpl; [exact Hd | discriminate | exact Hd].
Qed.

(** X17. The plain relay makes no upstream request for a missing, empty or
    repeated [url] parameter and exactly one otherwise, to the parameter as
    given, whether the upstream then answers, fails, or sends a body that
    cannot be read.  That request names no method and no timeout and
    carries a single header, a [User-Agent] that is never empty: the one of
    the caller, or [Mozilla/5.0] when the caller sent none or an empty one.
    No [Range] is ever passed on. *)
Theorem simple_relay_upstream (req : Request) :
  match upstream (snd (SimpleProxy.run fetch req)) with
  | [] => falsy (req_query req !! "url") || notString (req_query req !! "url") = true
  | [(target, init)] =>
      req_query req !! "url" = Some (QString target)
      /\ target <> EmptyString
      /\ init_method init = None
      /\ init_timeout init = None
      /\ init_headers init
         = <["User-Agent" := orElse (req_headers req !! "user-agent") "Mozilla/5.0"]> ∅
      /\ orElse (req_headers req !! "user-agent") "Mozilla/5.0" <> EmptyString
      /\ init_headers init !! "Range" = None
  | _ => False
  end.
Proof.
  unfold SimpleProxy.run, SimpleProxy.handler, try_catch, bind, lift, SimpleProxy.do_fetch.
  destruct (req_query req !! "url") as [[[|c target]|targets]|];
    [reflexivity | | reflexivity..].
  cbn [falsy notString isEmpty orb toString].
  pose proof (orElse_nonempty (req_headers req !! "user-agent") "Mozilla/5.0"
                ltac:(discriminate)) as Hagent.
  destruct (fetch _ _) as [response|e]; [destruct (resp_text response)|];
    (hnf; split_all; [reflexivity | discriminate | reflexivity | reflexivity | reflexivity
                     | exact Hagent | reflexivity]).
Qed.

(** X18. The plain relay has three answers.  A text body is the text of the
    answer the upstream gave to the one request, sent with the status of
    that answer and [Access-Control-Allow-Origin: *].  A JSON body is one of
    the two error objects, sent with 400 before any upstream request or with
    500 after one, and in both cases without the origin header.  There is no
    other body. *)
Theorem simple_relay_answers (req : Request) :
  match res_body (res (snd (SimpleProxy.run fetch req))) with
  | Some (BodyText data) =>
      getHeader (res (snd (SimpleProxy.run fetch req))) "Access-Control-Allow-Origin"
      = Some "*"
      /\ exists init response,
           upstream (snd (SimpleProxy.run fetch req))
           = [(toString (req_query req !! "url"), init)]
           /\ fetch (toString (req_query req !! "url")) init = Ok response
           /\ resp_text response = Ok data
           /\ statusCode (res (snd (SimpleProxy.run fetch req))) = resp_status response
  | Some (BodyJson fields) =>
      getHeader (res (snd (SimpleProxy.run fetch req))) "Access-Control-Allow-Origin" = None
      /\ ((statusCode (res (snd (SimpleProxy.run fetch req))) = 400%Z
           /\ fields = [("error", JString "URL parameter required")]
           /\ upstream (snd (SimpleProxy.run fetch req)) = [])
          \/ (statusCode (res (snd (SimpleProxy.run fetch req))) = 500%Z
              /\ fields = [("error", JString "Proxy request failed")]
              /\ length (upstream (snd (SimpleProxy.run fetch req))) = 1%nat))
  | _ => False
  end.
Proof.
  unfold SimpleProxy.run, SimpleProxy.handler, try_catch, bind, lift, SimpleProxy.do_fetch.
  destruct (falsy (req_query req !! "url") || notString (req_query req !! "url")).
  { split; [reflexivity | left; split_all; reflexivity]. }
  destruct (fetch _ _) as [response|e] eqn:Ef;
    [|split; [reflexivity | right; split_all; reflexivity]].
  destruct (resp_text response) as [data|e] eqn:Et.
  - split; [reflexivity|]. eexists _, response.
    split_all; [reflexivity | exact Ef | exact Et | reflexivity].
  - split; [reflexivity | right; split_all; reflexivity].
Qed.

End PlainRelay.

(* ===================================================================== *)
(** * The handlers of api/proxy.js beside the one of api/proxy.ts *)
(* ===================================================================== *)

Section Siblings.
Import JS Relay.

Variable new_URL : string -> option string -> result URL.
Variable fetch : string -> RequestInit -> result Response.

Ltac split_all := repeat match goal with |- _ /\ _ => split end.

Ltac copied response :=
  destruct (truthy (resp_headers response !! "content-type"));
  destruct (truthy (resp_headers response !! "content-length"));
  destruct (truthy (resp_headers response !! "content-range"));
  destruct (truthy (resp_headers response !! "accept-ranges")).

Ltac run_res :=
  cbn [res_setHeader res_status res_send res_json res_end snd fst res res_headers
       statusCode res_body upstream Proxy.setCors ProxyJs.setCors Shrina.setCors forEach
       ret bind Proxy.CORS_HEADERS ProxyJs.CORS_HEADERS Shrina.CORS_HEADERS initial].

Ltac leaf := split_all; run_res; try reflexivity; eexists; reflexivity.

Ltac shrina_leaf :=
  split_all; run_res; try reflexivity; first [right; reflexivity | left; reflexivity].

Ltac open_js :=
  unfold ProxyJs.run, ProxyJs.handler, try_catch, bind, lift, Proxy.do_fetch,
    Proxy.forwardHeader, Proxy.isM3U8 in *;
  cbn beta iota in *.

Ltac open_ts :=
  unfold Proxy.run, Proxy.handler, try_catch, bind, lift, Proxy.do_fetch,
    Proxy.forwardHeader, Proxy.isM3U8 in *;
  cbn beta iota in *.

Ltac open_shrina :=
  unfold Shrina.run, Shrina.handler, try_catch, bind, lift, Proxy.do_fetch,
    Proxy.forwardHeader, Proxy.isM3U8 in *;
  cbn beta iota in *.

(** X19. The first handler of [api/proxy.js] answers a preflight with three
    headers written out by hand: the allowed request headers are
    [Content-Type, Range], without [Authorization], and no header is
    exposed.  Every other answer of that handler carries the full table. *)
Theorem proxyjs_cors (req : Request) :
  if strictEq (req_method req) "OPTIONS"
  then
    statusCode (res (snd (ProxyJs.run new_URL fetch req))) = 204%Z
    /\ getHeader (res (snd (ProxyJs.run new_URL fetch req))) "Access-Control-Allow-Origin"
       = Some "*"
    /\ getHeader (res (snd (ProxyJs.run new_URL fetch req))) "Access-Control-Allow-Methods"
       = Some "GET, POST, OPTIONS"
    /\ getHeader (res (snd (ProxyJs.run new_URL fetch req))) "Access-Control-Allow-Headers"
       = Some "Content-Type, Range"
    /\ getHeader (res (snd (ProxyJs.run new_URL fetch req))) "Access-Control-Expose-Headers"
       = None
  else cors_ok (res (snd (ProxyJs.run new_URL fetch req))).
Proof.
  open_js.
  destruct (strictEq (req_method req) "OPTIONS"); [vm_compute; split_all; reflexivity|].
  destruct (falsy (req_query req !! "url")); [vm_compute; split_all; reflexivity|].
  destruct (new_URL _ None) as [u|e]; [|vm_compute; split_all; reflexivity].
  destruct (fetch _ _) as [response|e]; [|vm_compute; split_all; reflexivity].
  destruct (req_query req !! "url") as [[target|targets]|];
    [|vm_compute; split_all; reflexivity..].
  cbn beta iota.
  destruct (endsWith target ".m3u8" || _).
  - destruct (resp_text response); vm_compute; split_all; reflexivity.
  - copied response; destruct (resp_arrayBuffer response);
      vm_compute; split_all; reflexivity.
Qed.

(** X20. For a request with a method other than OPTIONS the first handler of
    [api/proxy.js] and the handler of [api/proxy.ts] make the same upstream
    requests and answer with the same status and the same headers, and with
    the same body whenever the body is a playlist or upstream bytes; only
    the JSON bodies can differ. *)
Theorem proxyjs_agrees (req : Request) :
  strictEq (req_method req) "OPTIONS" = false ->
  truthy (req_method req) = true ->
  upstream (snd (ProxyJs.run new_URL fetch req))
  = upstream (snd (Proxy.run new_URL fetch req))
  /\ statusCode (res (snd (ProxyJs.run new_URL fetch req)))
     = statusCode (res (snd (Proxy.run new_URL fetch req)))
  /\ res_headers (res (snd (ProxyJs.run new_URL fetch req)))
     = res_headers (res (snd (Proxy.run new_URL fetch req)))
  /\ match res_body (res (snd (Proxy.run new_URL fetch req))) with
     | Some (BodyJson _) =>
         exists fields,
           res_body (res (snd (ProxyJs.run new_URL fetch req))) = Some (BodyJson fields)
     | body => res_body (res (snd (ProxyJs.run new_URL fetch req))) = body
     end.
Proof.
  intros Hm Ht. open_js. open_ts. unfold ProxyJs.fetchInit, Proxy.fetchInit.
  rewrite Hm.
  destruct (req_method req) as [[|c m]|]; [discriminate Ht | | discriminate Ht].
  cbn [orElse isEmpty].
  change (ProxyJs.requestHeaders req) with (Proxy.requestHeaders req).
  destruct (falsy (req_query req !! "url")); [leaf|].
  destruct (new_URL _ None) as [u|e];
    [|leaf].
  destruct (fetch _ _) as [response|e];
    [|leaf].
  destruct (req_query req !! "url") as [[target|targets]|];
    [|leaf..].
  cbn beta iota.
  destruct (endsWith target ".m3u8" || _).
  - destruct (resp_text response); leaf.
  - copied response; destruct (resp_arrayBuffer response);
      leaf.
Qed.

(** X21. The domain table of the second unit of [api/proxy.js] extends the
    one of [api/proxy.ts].  A hostname that holds none of the four added
    domains resolves alike in both.  The three entries added at the end
    never take over a hostname the shorter table resolves; the entry added
    in second place does, for every hostname that holds [padorupado.ru] and
    not [kwikie.ru]. *)
Theorem shrina_resolver (hostname : string) :
  (includes hostname "padorupado.ru" = false ->
   includes hostname "premilkyway.com" = false ->
   includes hostname "anih1.top" = false ->
   includes hostname "xyk3.top" = false ->
   Shrina.getDomainHeaders hostname = Proxy.getDomainHeaders hostname)
  /\ (includes hostname "padorupado.ru" = false ->
      Proxy.getDomainHeaders hostname <> ∅ ->
      Shrina.getDomainHeaders hostname = Proxy.getDomainHeaders hostname)
  /\ (includes hostname "padorupado.ru" = true ->
      includes hostname "kwikie.ru" = false ->
      Shrina.getDomainHeaders hostname
      = Proxy.originReferer "https://kwik.si" "https://kwik.si/").
Proof.
  unfold Shrina.getDomainHeaders, Shrina.DOMAIN_HEADERS, Proxy.getDomainHeaders,
    Proxy.DOMAIN_HEADERS.
  cbn [Proxy.getDomainHeaders_loop].
  split_all.
  - intros -> -> -> ->. reflexivity.
  - intros -> Hne.
    repeat match goal with
           | |- context [if includes hostname ?d then _ else _] =>
               destruct (includes hostname d) eqn:?
           end;
      try reflexivity.
    all: exfalso; apply Hne;
      repeat match goal with H : includes hostname _ = _ |- _ => rewrite H end;
      reflexivity.
  - intros -> ->. reflexivity.
Qed.

(** X22. For a request with a method, and a target whose hostname the two
    domain tables resolve alike, the second handler of [api/proxy.js] and
    the handler of [api/proxy.ts] make the same upstream requests and
    answer with the same status and headers, the preflight included, and
    with the same body unless it is the 500 body. *)
Theorem shrina_agrees (req : Request) :
  truthy (req_method req) = true ->
  (forall u, new_URL (toString (req_query req !! "url")) None = Ok u ->
             Shrina.getDomainHeaders (hostname u) = Proxy.getDomainHeaders (hostname u)) ->
  upstream (snd (Shrina.run new_URL fetch req))
  = upstream (snd (Proxy.run new_URL fetch req))
  /\ statusCode (res (snd (Shrina.run new_URL fetch req)))
     = statusCode (res (snd (Proxy.run new_URL fetch req)))
  /\ res_headers (res (snd (Shrina.run new_URL fetch req)))
     = res_headers (res (snd (Proxy.run new_URL fetch req)))
  /\ (statusCode (res (snd (Proxy.run new_URL fetch req))) = 500%Z
      \/ res_body (res (snd (Shrina.run new_URL fetch req)))
         = res_body (res (snd (Proxy.run new_URL fetch req)))).
Proof.
  intros Ht Hd. open_shrina. open_ts. unfold Shrina.fetchInit, Proxy.fetchInit.
  destruct (req_method req) as [[|c m]|]; [discriminate Ht | | discriminate Ht].
  cbn [orElse isEmpty].
  destruct (strictEq (Some (String c m)) "OPTIONS"); [shrina_leaf|].
  destruct (falsy (req_query req !! "url")); [shrina_leaf|].
  destruct (new_URL _ None) as [u|e] eqn:Eu; [|shrina_leaf].
  replace (Shrina.requestHeaders req u) with (Proxy.requestHeaders req u)
    by (unfold Shrina.requestHeaders, Proxy.requestHeaders; now rewrite (Hd u eq_refl)).
  destruct (fetch _ _) as [response|e]; [|shrina_leaf].
  destruct (req_query req !! "url") as [[target|targets]|]; [|shrina_leaf..].
  cbn beta iota.
  destruct (endsWith target ".m3u8" || _).
  - destruct (resp_text response); shrina_leaf.
  - copied response; destruct (resp_arrayBuffer response); shrina_leaf.
Qed.

End Siblings.

Section MoreExamples.
Import JS Proxy Relay Flow.

Lemma processM3U8_target_tail_example :
  processM3U8 Ref.new_URL Ref.playlist Ref.B ("https://a.com/path" ++ "/" ++ "index.m3u8")
  = processM3U8 Ref.new_URL Ref.playlist Ref.B ("https://a.com/path" ++ "/")
  /\ processM3U8 Ref.new_URL Ref.playlist Ref.B ("https://a.com/path" ++ "/" ++ "index.m3u8")
     = join (String LF EmptyString)
         (map (processLine Ref.new_URL Ref.B ("https://a.com/path" ++ "/"))
            (splitLines Ref.playlist))
  /\ processM3U8 Ref.new_URL Ref.playlist Ref.B "index.m3u8"
     = join (String LF EmptyString)
         (map (processLine Ref.new_URL Ref.B EmptyString) (splitLines Ref.playlist)).
Proof.
  exact (processM3U8_target_tail Ref.new_URL Ref.playlist Ref.B "https://a.com/path"
           "index.m3u8" eq_refl).
Defined.

Lemma processM3U8_append_example :
  processM3U8 Ref.new_URL ("#EXTM3U" ++ String LF "seg1.ts") Ref.B Ref.T
  = processM3U8 Ref.new_URL "#EXTM3U" Ref.B Ref.T
    ++ String LF EmptyString ++ processM3U8 Ref.new_URL "seg1.ts" Ref.B Ref.T.
Proof.
  exact (proj2 (processM3U8_append Ref.new_URL "#EXTM3U" "seg1.ts" Ref.B Ref.T) eq_refl).
Defined.

Lemma broken_attribute_lines_example :
  processLine Ref.new_URL Ref.B "https://a.com/p/"
    ("#EXT-X-KEY:METHOD=AES-128," ++ URI_OPEN ++ "key.bin")
  = "#EXT-X-KEY:METHOD=AES-128," ++ URI_OPEN ++ "key.bin"
  /\ processLine Ref.new_URL Ref.B "https://a.com/p/"
       ("#EXT-X-KEY:METHOD=AES-128," ++ URI_OPEN ++ String DQ ",IV=0x1")
     = "#EXT-X-KEY:METHOD=AES-128," ++ URI_OPEN ++ String DQ ",IV=0x1".
Proof.
  split.
  - exact (proj1 (broken_attribute_lines Ref.new_URL Ref.B "https://a.com/p/"
                    "#EXT-X-KEY:METHOD=AES-128," "key.bin" ",IV=0x1" eq_refl) eq_refl).
  - exact (proj2 (broken_attribute_lines Ref.new_URL Ref.B "https://a.com/p/"
                    "#EXT-X-KEY:METHOD=AES-128," "key.bin" ",IV=0x1" eq_refl) eq_refl).
Defined.

Lemma proxyjs_agrees_example :
  upstream (snd (ProxyJs.run Ref.new_URL (Ref.serve Ref.octets200)
                   (Ref.request "GET" "https://a.com/path/index.m3u8" Ref.host)))
  = upstream (snd (Proxy.run Ref.new_URL (Ref.serve Ref.octets200)
                     (Ref.request "GET" "https://a.com/path/index.m3u8" Ref.host)))
  /\ statusCode (res (snd (ProxyJs.run Ref.new_URL (Ref.serve Ref.octets200)
                             (Ref.request "GET" "https://a.com/path/index.m3u8" Ref.host))))
     = statusCode (res (snd (Proxy.run Ref.new_URL (Ref.serve Ref.octets200)
                               (Ref.request "GET" "https://a.com/path/index.m3u8"
                                  Ref.host))))
  /\ res_headers (res (snd (ProxyJs.run Ref.new_URL (Ref.serve Ref.octets200)
                              (Ref.request "GET" "https://a.com/path/index.m3u8" Ref.host))))
     = res_headers (res (snd (Proxy.run Ref.new_URL (Ref.serve Ref.octets200)
                                (Ref.request "GET" "https://a.com/path/index.m3u8"
                                   Ref.host))))
  /\ res_body (res (snd (ProxyJs.run Ref.new_URL (Ref.serve Ref.octets200)
                           (Ref.request "GET" "https://a.com/path/index.m3u8" Ref.host))))
     = res_body (res (snd (Proxy.run Ref.new_URL (Ref.serve Ref.octets200)
                             (Ref.request "GET" "https://a.com/path/index.m3u8" Ref.host)))).
Proof.
  exact (proxyjs_agrees Ref.new_URL (Ref.serve Ref.octets200)
           (Ref.request "GET" "https://a.com/path/index.m3u8" Ref.host) eq_refl eq_refl).
Defined.

Lemma shrina_resolver_example :
  Shrina.getDomainHeaders "hls.krussdomi.com" = Proxy.getDomainHeaders "hls.krussdomi.com"
  /\ Shrina.getDomainHeaders "cdn.akamaized.net.xyk3.top"
     = Proxy.getDomainHeaders "cdn.akamaized.net.xyk3.top"
  /\ Shrina.getDomainHeaders "krussdomi.com.padorupado.ru"
     = Proxy.originReferer "https://kwik.si" "https://kwik.si/".
Proof.
  split; [|split].
  - exact (proj1 (shrina_resolver "hls.krussdomi.com") eq_refl eq_refl eq_refl eq_refl).
  - apply (proj1 (proj2 (shrina_resolver "cdn.akamaized.net.xyk3.top")) eq_refl).
    intros H. vm_compute in H. discriminate H.
  - exact (proj2 (proj2 (shrina_resolver "krussdomi.com.padorupado.ru")) eq_refl eq_refl).
Defined.

Lemma shrina_agrees_example :
  upstream (snd (Shrina.run Ref.new_URL (Ref.serve Ref.segment206)
                   (Ref.request "GET" "https://hls.krussdomi.com/v/seg7.ts" Ref.ranged)))
  = upstream (snd (Proxy.run Ref.new_URL (Ref.serve Ref.segment206)
                     (Ref.request "GET" "https://hls.krussdomi.com/v/seg7.ts" Ref.ranged)))
  /\ statusCode (res (snd (Shrina.run Ref.new_URL (Ref.serve Ref.segment206)
                             (Ref.request "GET" "https://hls.krussdomi.com/v/seg7.ts"
                                Ref.ranged))))
     = statusCode (res (snd (Proxy.run Ref.new_URL (Ref.serve Ref.segment206)
                               (Ref.request "GET" "https://hls.krussdomi.com/v/seg7.ts"
                                  Ref.ranged))))
  /\ res_headers (res (snd (Shrina.run Ref.new_URL (Ref.serve Ref.segment206)
                              (Ref.request "GET" "https://hls.krussdomi.com/v/seg7.ts"
                                 Ref.ranged))))
     = res_headers (res (snd (Proxy.run Ref.new_URL (Ref.serve Ref.segment206)
                                (Ref.request "GET" "https://hls.krussdomi.com/v/seg7.ts"
                                   Ref.ranged))))
  /\ (statusCode (res (snd (Proxy.run Ref.new_URL (Ref.serve Ref.segment206)
                              (Ref.request "GET" "https://hls.krussdomi.com/v/seg7.ts"
                                 Ref.ranged))))
      = 500%Z
      \/ res_body (res (snd (Shrina.run Ref.new_URL (Ref.serve Ref.segment206)
                               (Ref.request "GET" "https://hls.krussdomi.com/v/seg7.ts"
                                  Ref.ranged))))
         = res_body (res (snd (Proxy.run Ref.new_URL (Ref.serve Ref.segment206)
                                 (Ref.request "GET" "https://hls.krussdomi.com/v/seg7.ts"
                                    Ref.ranged))))).
Proof.
  apply (shrina_agrees Ref.new_URL (Ref.serve Ref.segment206)
           (Ref.request "GET" "https://hls.krussdomi.com/v/seg7.ts" Ref.ranged) eq_refl).
  intros u H. vm_compute in H. injection H as <-. reflexivity.
Defined.

End MoreExamples.
